(** * JIS B 0405 general-tolerance calculator: the logic of [src/App.tsx]

    The component reads a dimension string and a tolerance class, parses
    the string with [parseFloat], validates it against [0.5, 4000], looks
    the dimension up in [toleranceTable], derives the two limits and
    formats the three numbers with [Number(num.toFixed(3)).toString()].

    A JavaScript [number] is an IEEE 754 binary64 value.  It is modelled
    with [spec_float] at precision 53 and maximal exponent 1024, so [+],
    [-] and the comparisons below are the rounding operations the program
    runs, not exact arithmetic. *)

From Stdlib Require Import ZArith Lia Bool List String Ascii SpecFloat.
From Stdlib Require Import DecimalString.
Import ListNotations.

Local Open Scope Z_scope.

(** ** The [number] type and its primitive operations *)

Definition number : Type := spec_float.

Module Num.

Definition prec : Z := 53.
Definition emax : Z := 1024.

Definition NaN : number := S754_nan.

(** A [number] the engine can hold is a well-formed binary64 value. *)
Definition is_double (x : number) : bool := valid_binary prec emax x.

Definition isNaN (x : number) : bool :=
  match x with S754_nan => true | _ => false end.

Definition add (x y : number) : number := SFadd prec emax x y.
Definition sub (x y : number) : number := SFsub prec emax x y.

(** [x < y], [x <= y], [x > y], [x >= y] and [x === y]: each is false
    as soon as one side is NaN. *)
Definition lt (x y : number) : bool := SFltb x y.
Definition le (x y : number) : bool := SFleb x y.
Definition gt (x y : number) : bool := lt y x.
Definition ge (x y : number) : bool := le y x.
Definition seq (x y : number) : bool := SFeqb x y.

(** The number nearest to [m * 10^e] (ties to even): the value of a
    decimal literal, and of a decimal string handed to [parseFloat] or
    [Number]. *)
Definition of_decimal (neg : bool) (m : N) (e : Z) : number :=
  match m with
  | N0 => S754_zero neg
  | Npos p =>
      match e with
      | Zneg k =>
          SFdiv prec emax (S754_finite neg p 0)
                (S754_finite false (Pos.pow 10 k) 0)
      | _ => binary_round prec emax neg (p * Z.to_pos (10 ^ e)) 0
      end
  end.

End Num.

(** Decimal literals of the source are read as the engine reads them:
    [0.05] denotes the double nearest to 5/100. *)
Definition of_literal (n : Number.number) : option spec_float :=
  match n with
  | Number.Decimal (Decimal.Decimal (Decimal.Pos i) f) =>
      Some (Num.of_decimal false (N.of_uint (Decimal.app i f))
              (- Z.of_nat (Decimal.nb_digits f)))
  | Number.Decimal (Decimal.DecimalExp (Decimal.Pos i) f e) =>
      Some (Num.of_decimal false (N.of_uint (Decimal.app i f))
              (Z.of_int e - Z.of_nat (Decimal.nb_digits f)))
  | _ => None
  end.

Definition to_literal (x : spec_float) : option Number.number := None.

Declare Scope num_scope.
Delimit Scope num_scope with num.
Number Notation spec_float of_literal to_literal : num_scope.

Infix "+" := Num.add : num_scope.
Infix "-" := Num.sub : num_scope.
Infix "<" := Num.lt : num_scope.
Infix "<=" := Num.le : num_scope.
Infix ">" := Num.gt : num_scope.
Infix ">=" := Num.ge : num_scope.
Infix "===" := Num.seq (at level 70, no associativity) : num_scope.

(** ** Completions: a call returns normally or throws *)

Inductive Error : Type := RangeError | TypeError.

Inductive Completion (A : Type) : Type :=
  | Normal (a : A)
  | Throw (err : Error).

Arguments Normal {A} a.
Arguments Throw {A} err.

Definition bind {A B : Type} (c : Completion A) (k : A -> Completion B)
  : Completion B :=
  match c with
  | Normal a => k a
  | Throw err => Throw err
  end.

Notation "x <- c ;; k" := (bind c (fun x => k))
  (at level 61, c at next level, right associativity).

(** ** Built-in functions the component calls

    [parseFloat], [Number] applied to a string, [Number.prototype.toFixed]
    and [Number.prototype.toString], each following its ECMA-262 algorithm.
    A string is a sequence of code units; the model keeps those below 256,
    so the white space recognised is TAB, LF, VT, FF, CR, SP and NBSP. *)

Module Builtins.

Local Open Scope string_scope.

Definition is_white_space (c : ascii) : bool :=
  let n := N_of_ascii c in
  ((9 <=? n) && (n <=? 13) || (n =? 32) || (n =? 160))%N.

Definition digit_in (radix : N) (c : ascii) : option N :=
  let n := N_of_ascii c in
  let v :=
    if ((48 <=? n) && (n <=? 57))%N then Some (n - 48)%N
    else if ((97 <=? n) && (n <=? 102))%N then Some (n - 87)%N
    else if ((65 <=? n) && (n <=? 70))%N then Some (n - 55)%N
    else None in
  match v with
  | Some d => if (d <? radix)%N then Some d else None
  | None => None
  end.

Fixpoint trim_start (s : string) : string :=
  match s with
  | String c r => if is_white_space c then trim_start r else s
  | EmptyString => s
  end.

Fixpoint all_white_space (s : string) : bool :=
  match s with
  | String c r => is_white_space c && all_white_space r
  | EmptyString => true
  end.

Fixpoint strip_prefix (p s : string) : option string :=
  match p, s with
  | EmptyString, _ => Some s
  | String a p', String b s' =>
      if Ascii.eqb a b then strip_prefix p' s' else None
  | String _ _, EmptyString => None
  end.

(** The longest run of digits at the head of [s], accumulated on top of
    [acc]; also how many digits were read, and what follows them. *)
Fixpoint scan_digits (radix : N) (s : string) (acc : N) (cnt : nat)
  : N * nat * string :=
  match s with
  | String c r =>
      match digit_in radix c with
      | Some d => scan_digits radix r (radix * acc + d)%N (S cnt)
      | None => (acc, cnt, s)
      end
  | EmptyString => (acc, cnt, s)
  end.

Definition scan_sign (s : string) : bool * string :=
  match s with
  | String c r =>
      if Ascii.eqb c "+" then (false, r)
      else if Ascii.eqb c "-" then (true, r)
      else (false, s)
  | EmptyString => (false, s)
  end.

(** ExponentPart, when one is present and complete; otherwise nothing
    is consumed. *)
Definition scan_exponent (s : string) : Z * string :=
  match s with
  | String c r =>
      if (Ascii.eqb c "e" || Ascii.eqb c "E")%bool then
        let (neg, r1) := scan_sign r in
        let '(v, n, r2) := scan_digits 10 r1 0%N O in
        match n with
        | O => (0, s)
        | S _ => (if neg then - Z.of_N v else Z.of_N v, r2)
        end
      else (0, s)
  | EmptyString => (0, s)
  end.

Inductive literal : Type :=
  | LitInfinity
  | LitDecimal (m : N) (e : Z).

(** The longest prefix of [s] that is a StrUnsignedDecimalLiteral:
    [Infinity], or digits with an optional fraction and an optional
    exponent, at least one digit before or after the point. *)
Definition scan_unsigned (s : string) : option (literal * string) :=
  match strip_prefix "Infinity" s with
  | Some r => Some (LitInfinity, r)
  | None =>
      let '(i, ni, r) := scan_digits 10 s 0%N O in
      let integer_only :=
        match ni with
        | O => None
        | S _ =>
            let (x, r3) := scan_exponent r in
            Some (LitDecimal i x, r3)
        end in
      match r with
      | String c r1 =>
          if Ascii.eqb c "." then
            let '(m, nf, r2) := scan_digits 10 r1 i O in
            match ni, nf with
            | O, O => None
            | _, _ =>
                let (x, r3) := scan_exponent r2 in
                Some (LitDecimal m (x - Z.of_nat nf), r3)
            end
          else integer_only
      | EmptyString => integer_only
      end
  end.

Definition literal_value (neg : bool) (l : literal) : number :=
  match l with
  | LitInfinity => S754_infinity neg
  | LitDecimal m e => Num.of_decimal neg m e
  end.

(** [parseFloat(string)]: leading white space is dropped, the longest
    prefix that is a StrDecimalLiteral is converted, and whatever follows
    it is ignored; NaN when no prefix is one. *)
Definition parseFloat (s : string) : number :=
  let (neg, r) := scan_sign (trim_start s) in
  match scan_unsigned r with
  | Some (l, _) => literal_value neg l
  | None => Num.NaN
  end.

Definition scan_radix_literal (s : string) : option (N * string) :=
  match s with
  | String "0" (String c r) =>
      let radix :=
        if (Ascii.eqb c "x" || Ascii.eqb c "X")%bool then Some 16%N
        else if (Ascii.eqb c "o" || Ascii.eqb c "O")%bool then Some 8%N
        else if (Ascii.eqb c "b" || Ascii.eqb c "B")%bool then Some 2%N
        else None in
      match radix with
      | Some b =>
          let '(v, n, r1) := scan_digits b r 0%N O in
          match n with O => None | S _ => Some (v, r1) end
      | None => None
      end
  | _ => None
  end.

(** [Number(string)], that is StringToNumber: the whole string, white
    space at both ends apart, must be a numeric literal. *)
Definition StringToNumber (s : string) : number :=
  let t := trim_start s in
  if all_white_space t then S754_zero false
  else
    match scan_radix_literal t with
    | Some (v, rest) =>
        if all_white_space rest then Num.of_decimal false v 0 else Num.NaN
    | None =>
        let (neg, r) := scan_sign t in
        match scan_unsigned r with
        | Some (l, rest) =>
            if all_white_space rest then literal_value neg l else Num.NaN
        | None => Num.NaN
        end
    end.

(** *** Exact comparisons between a binary and a decimal magnitude *)

Definition pow2 (e : Z) : Z := 2 ^ Z.max 0 e.
Definition pow10 (e : Z) : Z := 10 ^ Z.max 0 e.

(** [m * 2^e] against [s * 10^p], both sides cleared of denominators. *)
Definition cmp_bin_dec (m e s p : Z) : comparison :=
  ((m * pow2 e * pow10 (- p)) ?= (s * pow10 p * pow2 (- e)))%Z.

(** The integer part of [m * 2^e / 10^p]. *)
Definition floor_bin_dec (m e p : Z) : Z :=
  (m * pow2 e * pow10 (- p)) / (pow10 p * pow2 (- e)).

Definition digits_of (n : Z) : string :=
  NilZero.string_of_uint (N.to_uint (Z.to_N n)).

Fixpoint zeros (n : nat) : string :=
  match n with
  | O => EmptyString
  | S k => String "0" (zeros k)
  end.

Definition take (n : nat) (s : string) : string := substring 0 n s.
Definition drop (n : nat) (s : string) : string :=
  substring n (String.length s - n) s.

(** *** [Number::toString(x, 10)] *)

(** The least [n] from [n0] on with [m * 2^e < 10^n]. *)
Fixpoint decimal_exponent (fuel : nat) (m e n0 : Z) : Z :=
  match fuel with
  | O => n0
  | S f =>
      match cmp_bin_dec m e 1 n0 with
      | Lt => n0
      | _ => decimal_exponent f m e (n0 + 1)
      end
  end.

(** The [k]-digit decimals just below and just above [m * 2^e], and the
    one of them, if any, that reads back as the double [(m, e)]; when
    both do, the nearer one, the even one on a tie. *)
Definition candidate (m : positive) (e n k : Z) : option Z :=
  let x := S754_finite false m e in
  let lo := floor_bin_dec (Z.pos m) e (n - k) in
  let hi := lo + 1 in
  let reads_back s := SFeqb (Num.of_decimal false (Z.to_N s) (n - k)) x in
  match reads_back lo, reads_back hi with
  | true, true =>
      match cmp_bin_dec (2 * Z.pos m) e (lo + hi) (n - k) with
      | Lt => Some lo
      | Gt => Some hi
      | Eq => Some (if Z.even lo then lo else hi)
      end
  | true, false => Some lo
  | false, true => Some hi
  | false, false => None
  end.

(** The digits [s], their number [k] and the exponent [n] of step 5:
    [k] as small as possible with [s * 10^(n-k)] reading back as the
    double.  Seventeen digits always identify a double. *)
Fixpoint shortest (fuel : nat) (m : positive) (e n k : Z) : Z * Z * Z :=
  match fuel with
  | O => (floor_bin_dec (Z.pos m) e (n - k), k, n)
  | S f =>
      match candidate m e n k with
      | Some s => if (s =? 10 ^ k)%Z then (10 ^ (k - 1), k, n + 1) else (s, k, n)
      | None => shortest f m e n (k + 1)
      end
  end.

Definition exponent_suffix (n : Z) : string :=
  "e" ++ (if (n - 1 <? 0)%Z then "-" else "+") ++ digits_of (Z.abs (n - 1)).

Definition format_digits (s k n : Z) : string :=
  let ds := digits_of s in
  if ((-5 <=? n) && (n <=? 21))%Z then
    if (k <=? n)%Z then ds ++ zeros (Z.to_nat (n - k))
    else if (0 <? n)%Z then take (Z.to_nat n) ds ++ "." ++ drop (Z.to_nat n) ds
    else "0." ++ zeros (Z.to_nat (- n)) ++ ds
  else
    if (k =? 1)%Z then ds ++ exponent_suffix n
    else take 1 ds ++ "." ++ drop 1 ds ++ exponent_suffix n.

Definition toString (x : number) : string :=
  match x with
  | S754_nan => "NaN"
  | S754_zero _ => "0"
  | S754_infinity neg => (if neg then "-" else "") ++ "Infinity"
  | S754_finite neg m e =>
      let n := decimal_exponent 640 (Z.pos m) e (-324) in
      let '(s, k, n') := shortest 17 m e n 1 in
      (if neg then "-" else "") ++ format_digits s k n'
  end.

(** *** [Number.prototype.toFixed(fractionDigits)] *)

(** The integer [n] with [n / 10^f] nearest to [m * 2^e], the larger
    one when two are equally near. *)
Definition round_half_up (m e f : Z) : Z :=
  (2 * m * pow2 e * pow10 f + pow2 (- e)) / (2 * pow2 (- e)).

Definition fixed_digits (n f : Z) : string :=
  let ds := digits_of n in
  if (f =? 0)%Z then ds
  else
    let k := String.length ds in
    let fz := Z.to_nat f in
    let ds := if (k <=? fz)%nat then zeros (fz + 1 - k) ++ ds else ds in
    let k := String.length ds in
    take (k - fz) ds ++ "." ++ drop (k - fz) ds.

Definition toFixed (fractionDigits : Z) (x : number) : Completion string :=
  if ((fractionDigits <? 0) || (100 <? fractionDigits))%Z then Throw RangeError
  else
    match x with
    | S754_finite neg m e =>
        match cmp_bin_dec (Z.pos m) e 1 21 with
        | Lt =>
            Normal ((if neg then "-" else "") ++
                    fixed_digits (round_half_up (Z.pos m) e fractionDigits)
                                 fractionDigits)
        | _ => Normal (toString x)
        end
    | S754_zero _ => Normal (fixed_digits 0 fractionDigits)
    | _ => Normal (toString x)
    end.

End Builtins.

(** ** The component *)

Local Open Scope num_scope.

Inductive ToleranceClass : Type := f | m | c | v.

Record Tolerances : Type := {
  tol_f : option number;
  tol_m : option number;
  tol_c : option number;
  tol_v : option number
}.

Record ToleranceRange : Type := {
  min : number;
  max : number;
  tolerances : Tolerances
}.

(** [tolerances[tolClass]]; [None] is the source's [null]. *)
Definition get (t : Tolerances) (tolClass : ToleranceClass) : option number :=
  match tolClass with
  | f => tol_f t
  | m => tol_m t
  | c => tol_c t
  | v => tol_v t
  end.

Definition range (lo hi : number) (tf tm tc tv : option number)
  : ToleranceRange :=
  {| min := lo; max := hi;
     tolerances := {| tol_f := tf; tol_m := tm; tol_c := tc; tol_v := tv |} |}.

Definition toleranceTable : list ToleranceRange := [
  range 0.5  3    (Some 0.05) (Some 0.1) (Some 0.2) None;
  range 3    6    (Some 0.05) (Some 0.1) (Some 0.3) (Some 0.5);
  range 6    30   (Some 0.1)  (Some 0.2) (Some 0.5) (Some 1);
  range 30   120  (Some 0.15) (Some 0.3) (Some 0.8) (Some 1.5);
  range 120  400  (Some 0.2)  (Some 0.5) (Some 1.2) (Some 2.5);
  range 400  1000 (Some 0.3)  (Some 0.8) (Some 2)   (Some 4);
  range 1000 2000 (Some 0.5)  (Some 1.2) (Some 3)   (Some 6);
  range 2000 4000 None        (Some 2)   (Some 4)   (Some 8)
].

Definition isValidDimension (dimension : number) : bool :=
  negb (Num.isNaN dimension) && (dimension >= 0.5) && (dimension <= 4000).

(** The predicate handed to [toleranceTable.find]. *)
Definition inRange (dimension : number) (r : ToleranceRange) : bool :=
  if min r === 0.5 then (dimension >= 0.5) && (dimension <= 3)
  else (dimension > min r) && (dimension <= max r).

Definition findRange (dimension : number) : option ToleranceRange :=
  find (inRange dimension) toleranceTable.

(** Reading [.tolerances] off the result of [find] throws a TypeError when
    [find] gave [undefined]. *)
Definition tolerances_of (r : option ToleranceRange) : Completion Tolerances :=
  match r with
  | Some r => Normal (tolerances r)
  | None => Throw TypeError
  end.

(** The body of the [useMemo] callback; memoisation does not change what
    it returns. *)
Definition tolerance (dimension : number) (tolClass : ToleranceClass)
  : Completion (option number) :=
  if negb (isValidDimension dimension) then Normal None
  else
    let range := findRange dimension in
    match range with
    | None => Normal None
    | Some _ =>
        t <- tolerances_of range ;;
        Normal (get t tolClass)
    end.

Definition upperLimit (dimension : number) (tolerance : option number)
  : option number :=
  match tolerance with
  | Some t => Some (dimension + t)
  | None => None
  end.

Definition lowerLimit (dimension : number) (tolerance : option number)
  : option number :=
  match tolerance with
  | Some t => Some (dimension - t)
  | None => None
  end.

Definition formatNumber (num : option number) : Completion string :=
  match num with
  | None => Normal "-"%string
  | Some n =>
      s <- Builtins.toFixed 3 n ;;
      Normal (Builtins.toString (Builtins.StringToNumber s))
  end.

(** What the result pane shows: one of the two messages, or the three
    formatted numbers. *)
Inductive Message : Type :=
  | NotSpecified        (* valid dimension, no tolerance in the table *)
  | EnterValidDimension (* the dimension is not valid *).

Inductive ResultPane : Type :=
  | ShowMessage (msg : Message)
  | ShowValues (tol upper lower : string).

Record View : Type := {
  validationError : bool;
  result : ResultPane
}.

(** The state of the first render: [useState('3')] and [useState('m')]. *)
Definition initialDimensionStr : string := "3".
Definition initialTolClass : ToleranceClass := m.

(** One render: the view as a function of the two state variables.  The
    sign in front of the displayed tolerance is part of the markup and is
    left out of [ShowValues]. *)
Definition App (dimensionStr : string) (tolClass : ToleranceClass)
  : Completion View :=
  let dimension := Builtins.parseFloat dimensionStr in
  let isValid := isValidDimension dimension in
  tol <- tolerance dimension tolClass ;;
  let upper := upperLimit dimension tol in
  let lower := lowerLimit dimension tol in
  pane <-
    match tol with
    | None =>
        Normal (ShowMessage (if isValid then NotSpecified
                             else EnterValidDimension))
    | Some _ =>
        st <- formatNumber tol ;;
        su <- formatNumber upper ;;
        sl <- formatNumber lower ;;
        Normal (ShowValues st su sl)
    end ;;
  Normal {| validationError :=
              negb (String.eqb dimensionStr "") && negb isValid;
            result := pane |}.

(** ** The component with its hooks

    [App] above is one render as a function of the state.  Here are the
    pieces around it: the memo cell behind [useMemo], the class selector
    rendered from [classLabels], the two change handlers, and a session of
    renders driven by events. *)

(** [Object.is] on numbers (SameValue): NaN is itself, and the two zeros
    differ. *)
Definition Object_is (x y : number) : bool :=
  match x, y with
  | S754_nan, S754_nan => true
  | S754_zero a, S754_zero b => Bool.eqb a b
  | S754_infinity a, S754_infinity b => Bool.eqb a b
  | S754_finite a mx ex, S754_finite b my ey =>
      Bool.eqb a b && Pos.eqb mx my && Z.eqb ex ey
  | _, _ => false
  end.

(** [tolClass === key] on the four class strings. *)
Definition class_eqb (a b : ToleranceClass) : bool :=
  match a, b with
  | f, f | m, m | c, c | v, v => true
  | _, _ => false
  end.

(** The dependency array [dimension, tolClass, isValidDimension]. *)
Record MemoDeps : Type := {
  dep_dimension : number;
  dep_tolClass : ToleranceClass;
  dep_isValidDimension : bool
}.

Definition sameDeps (a b : MemoDeps) : bool :=
  Object_is (dep_dimension a) (dep_dimension b) &&
  class_eqb (dep_tolClass a) (dep_tolClass b) &&
  Bool.eqb (dep_isValidDimension a) (dep_isValidDimension b).

Record MemoCell : Type := {
  cell_deps : MemoDeps;
  cell_value : option number
}.

(** [useMemo(calculate, deps)]: the cached value when every dependency is
    the same as at the last calculation, a fresh calculation (stored)
    otherwise, and on the first render. *)
Definition useMemo (cell : option MemoCell)
    (calculate : unit -> Completion (option number)) (deps : MemoDeps)
  : Completion (option number * option MemoCell) :=
  let recalculate :=
    value <- calculate tt ;;
    Normal (value, Some {| cell_deps := deps; cell_value := value |}) in
  match cell with
  | Some cached =>
      if sameDeps (cell_deps cached) deps
      then Normal (cell_value cached, cell)
      else recalculate
  | None => recalculate
  end.

(** [classLabels], in the order [Object.entries] lists its keys.  The
    label texts are kept as their UTF-8 bytes. *)
Definition classLabels : list (ToleranceClass * string) := [
  (f, "精級 (f)"%string);
  (m, "中級 (m)"%string);
  (c, "粗級 (c)"%string);
  (v, "極粗級 (v)"%string)
].

Record Radio : Type := {
  radio_value : ToleranceClass;
  radio_label : string;
  radio_checked : bool
}.

Definition radios (tolClass : ToleranceClass) : list Radio :=
  map (fun entry =>
         {| radio_value := fst entry;
            radio_label := snd entry;
            radio_checked := class_eqb tolClass (fst entry) |})
      classLabels.

(** Everything of [App] after the tolerance is known. *)
Definition present (dimensionStr : string) (dimension : number)
    (isValid : bool) (tol : option number) : Completion View :=
  let upper := upperLimit dimension tol in
  let lower := lowerLimit dimension tol in
  pane <-
    match tol with
    | None =>
        Normal (ShowMessage (if isValid then NotSpecified
                             else EnterValidDimension))
    | Some _ =>
        st <- formatNumber tol ;;
        su <- formatNumber upper ;;
        sl <- formatNumber lower ;;
        Normal (ShowValues st su sl)
    end ;;
  Normal {| validationError :=
              negb (String.eqb dimensionStr "") && negb isValid;
            result := pane |}.

Record Hooks : Type := {
  hook_dimensionStr : string;
  hook_tolClass : ToleranceClass;
  hook_memo : option MemoCell
}.

Record Screen : Type := {
  screen_input : string;
  screen_radios : list Radio;
  screen_view : View
}.

(** The hooks before the first render. *)
Definition mount : Hooks :=
  {| hook_dimensionStr := initialDimensionStr;
     hook_tolClass := initialTolClass;
     hook_memo := None |}.

(** One call of the component function: what it renders, and the hooks
    it leaves behind. *)
Definition renderApp (h : Hooks) : Completion (Screen * Hooks) :=
  let dimensionStr := hook_dimensionStr h in
  let tolClass := hook_tolClass h in
  let dimension := Builtins.parseFloat dimensionStr in
  let isValid := isValidDimension dimension in
  memo <- useMemo (hook_memo h) (fun _ => tolerance dimension tolClass)
            {| dep_dimension := dimension;
               dep_tolClass := tolClass;
               dep_isValidDimension := isValid |} ;;
  view <- present dimensionStr dimension isValid (fst memo) ;;
  Normal ({| screen_input := dimensionStr;
             screen_radios := radios tolClass;
             screen_view := view |},
          {| hook_dimensionStr := dimensionStr;
             hook_tolClass := tolClass;
             hook_memo := snd memo |}).

(** The two [onChange] handlers: [setDimensionStr(e.target.value)] and
    [setTolClass(e.target.value)]. *)
Inductive Event : Type :=
  | InputChange (value : string)
  | RadioChange (value : ToleranceClass).

Definition handle (h : Hooks) (ev : Event) : Hooks :=
  match ev with
  | InputChange value =>
      {| hook_dimensionStr := value;
         hook_tolClass := hook_tolClass h;
         hook_memo := hook_memo h |}
  | RadioChange value =>
      {| hook_dimensionStr := hook_dimensionStr h;
         hook_tolClass := value;
         hook_memo := hook_memo h |}
  end.

(** A render, then for each event its handler and the render it causes. *)
Fixpoint session (h : Hooks) (events : list Event)
  : Completion (list Screen) :=
  rendered <- renderApp h ;;
  match events with
  | [] => Normal [fst rendered]
  | ev :: rest =>
      screens <- session (handle (snd rendered) ev) rest ;;
      Normal (fst rendered :: screens)
  end.

(** * Facts about binary64 arithmetic *)

Close Scope num_scope.

Arguments Num.le : simpl never.
Arguments Num.lt : simpl never.
Arguments Num.gt : simpl never.
Arguments Num.ge : simpl never.

(** ** Order *)

Module NumFacts.

Lemma compare_cont_Eq (a b : positive) :
  Pos.compare_cont Eq a b = (Z.pos a ?= Z.pos b).
Proof. reflexivity. Qed.

(** Positive finite numbers are ordered by exponent, then by mantissa. *)
Lemma le_fin (m1 m2 : positive) (e1 e2 : Z) :
  Num.le (S754_finite false m1 e1) (S754_finite false m2 e2) = true <->
  e1 < e2 \/ (e1 = e2 /\ Z.pos m1 <= Z.pos m2).
Proof.
  unfold Num.le, SFleb, SFcompare. rewrite compare_cont_Eq.
  destruct (Z.compare_spec e1 e2);
    destruct (Z.compare_spec (Z.pos m1) (Z.pos m2));
    split; intros; try discriminate; try reflexivity; lia.
Qed.

Lemma lt_fin (m1 m2 : positive) (e1 e2 : Z) :
  Num.lt (S754_finite false m1 e1) (S754_finite false m2 e2) = true <->
  e1 < e2 \/ (e1 = e2 /\ Z.pos m1 < Z.pos m2).
Proof.
  unfold Num.lt, SFltb, SFcompare. rewrite compare_cont_Eq.
  destruct (Z.compare_spec e1 e2);
    destruct (Z.compare_spec (Z.pos m1) (Z.pos m2));
    split; intros; try discriminate; try reflexivity; lia.
Qed.

Lemma le_fin_false (m1 m2 : positive) (e1 e2 : Z) :
  Num.le (S754_finite false m1 e1) (S754_finite false m2 e2) = false <->
  e2 < e1 \/ (e1 = e2 /\ Z.pos m2 < Z.pos m1).
Proof. rewrite <- not_true_iff_false, le_fin. lia. Qed.

Lemma lt_fin_false (m1 m2 : positive) (e1 e2 : Z) :
  Num.lt (S754_finite false m1 e1) (S754_finite false m2 e2) = false <->
  e2 < e1 \/ (e1 = e2 /\ Z.pos m2 <= Z.pos m1).
Proof. rewrite <- not_true_iff_false, lt_fin. lia. Qed.

Lemma compare_antisym (x y : number) :
  SFcompare y x = option_map CompOpp (SFcompare x y).
Proof.
  destruct x as [sx|sx| |sx mx ex], y as [sy|sy| |sy my ey];
    try destruct sx; try destruct sy; try reflexivity;
    cbn [SFcompare option_map]; rewrite (Z.compare_antisym ey ex);
    change (Pos.compare_cont Eq mx my) with (Pos.compare mx my);
    change (Pos.compare_cont Eq my mx) with (Pos.compare my mx);
    rewrite (Pos.compare_antisym my mx);
    destruct (ey ?= ex); destruct (my ?= mx)%positive; reflexivity.
Qed.

(** Away from NaN the order is total: [x <= y] is the negation of
    [y < x]. *)
Lemma le_negb_lt (x y : number) :
  Num.isNaN x = false -> Num.isNaN y = false ->
  Num.le x y = negb (Num.lt y x).
Proof.
  intros Hx Hy. unfold Num.le, Num.lt, SFleb, SFltb.
  rewrite (compare_antisym x y).
  destruct (SFcompare x y) as [[| |]|] eqn:Hc; cbn [option_map CompOpp];
    try reflexivity.
  destruct x as [sx|sx| |sx mx ex], y as [sy|sy| |sy my ey]; discriminate.
Qed.

(** A well-formed double above the subnormal range carries 53 bits. *)
Lemma double_digits (s : bool) (md : positive) (ed : Z) :
  Num.is_double (S754_finite s md ed) = true -> -1074 < ed ->
  Z.pos (digits2_pos md) = 53.
Proof.
  unfold Num.is_double, valid_binary, bounded, canonical_mantissa, fexp, emin,
    Num.prec, Num.emax.
  intros H He. apply andb_true_iff in H as [H _]. apply Z.eqb_eq in H. lia.
Qed.

End NumFacts.

(** Turns comparisons of positive finite numbers, as hypotheses, into
    linear arithmetic over exponents and mantissas. *)
Ltac num2Z :=
  repeat match goal with
  | H : (_ && _)%bool = true |- _ => apply andb_true_iff in H; destruct H
  | H : Num.gt _ _ = _ |- _ => unfold Num.gt in H
  | H : Num.ge _ _ = _ |- _ => unfold Num.ge in H
  | H : Num.le (S754_finite false _ _) (S754_finite false _ _) = true |- _ =>
      apply NumFacts.le_fin in H
  | H : Num.le (S754_finite false _ _) (S754_finite false _ _) = false |- _ =>
      apply NumFacts.le_fin_false in H
  | H : Num.lt (S754_finite false _ _) (S754_finite false _ _) = true |- _ =>
      apply NumFacts.lt_fin in H
  | H : Num.lt (S754_finite false _ _) (S754_finite false _ _) = false |- _ =>
      apply NumFacts.lt_fin_false in H
  end.

Ltac split_false :=
  repeat match goal with
  | H : (_ && _)%bool = false |- _ =>
      apply andb_false_iff in H; destruct H; num2Z; try lia
  end.

(** ** Rounding

    What [binary_round_aux] does to an integer mantissa, read off its
    definition: the shift count is the bit length minus 53, the shift is a
    division by a power of two, and round-to-nearest-even adds at most one
    to the quotient.  From there, adding a large enough number moves a
    double strictly up and subtracting it moves it strictly down. *)

Module Rounding.

(** [digits2_pos p] is the bit length of [p]. *)
Lemma digits2_bounds (p : positive) :
  2 ^ (Z.pos (digits2_pos p) - 1) <= Z.pos p < 2 ^ Z.pos (digits2_pos p).
Proof.
  induction p as [p IH|p IH|]; cbn [digits2_pos].
  - rewrite Pos2Z.inj_succ.
    replace (Z.succ (Z.pos (digits2_pos p)) - 1) with (Z.succ (Z.pos (digits2_pos p) - 1)) by lia.
    rewrite !Z.pow_succ_r by lia. lia.
  - rewrite Pos2Z.inj_succ.
    replace (Z.succ (Z.pos (digits2_pos p)) - 1) with (Z.succ (Z.pos (digits2_pos p) - 1)) by lia.
    rewrite !Z.pow_succ_r by lia. lia.
  - cbn. lia.
Qed.

Lemma digits2_unique (p : positive) (k : Z) :
  2 ^ (k - 1) <= Z.pos p < 2 ^ k -> Z.pos (digits2_pos p) = k.
Proof.
  intros [Hlo Hhi]. pose proof (digits2_bounds p) as [Blo Bhi].
  set (D := Z.pos (digits2_pos p)) in *.
  assert (0 < k).
  { destruct (Z.lt_ge_cases 0 k) as [|Hk]; [assumption|].
    exfalso. destruct (Z.eq_dec k 0) as [->|].
    - cbn in Hhi. lia.
    - rewrite Z.pow_neg_r in Hhi by lia. lia. }
  destruct (Z.lt_trichotomy D k) as [Hlt|[Heq|Hgt]]; [ | assumption | ].
  - exfalso. assert (2 ^ D <= 2 ^ (k - 1)) by (apply Z.pow_le_mono_r; lia). lia.
  - exfalso. assert (2 ^ k <= 2 ^ (D - 1)) by (apply Z.pow_le_mono_r; lia). lia.
Qed.

Lemma iter_xO (p d : positive) :
  Z.pos (Pos.iter xO p d) = Z.pos p * 2 ^ Z.pos d.
Proof.
  induction d as [|d IH] using Pos.peano_ind.
  - cbn. lia.
  - rewrite Pos.iter_succ, Pos2Z.inj_succ, Z.pow_succ_r by lia.
    rewrite Pos2Z.inj_xO, IH. lia.
Qed.

Lemma shl_align_value (p : positive) (e e' : Z) :
  e' <= e ->
  Z.pos (fst (shl_align p e e')) = Z.pos p * 2 ^ (e - e').
Proof.
  intros He. unfold shl_align.
  destruct (e' - e) as [|k|k] eqn:Hk; cbn [fst].
  - replace (e - e') with 0 by lia. cbn. lia.
  - lia.
  - rewrite iter_xO. f_equal. f_equal. lia.
Qed.

Lemma shr_1_m (r : shr_record) :
  0 <= shr_m r -> shr_m (shr_1 r) = shr_m r / 2.
Proof.
  destruct r as [mm rr ss]. cbn [shr_m]. intros H.
  destruct mm as [|p|p]; [reflexivity| |lia].
  destruct p as [p|p|]; cbn [shr_1 shr_m].
  - rewrite Pos2Z.inj_xI. apply Z.div_unique with 1; lia.
  - rewrite Pos2Z.inj_xO. apply Z.div_unique with 0; lia.
  - reflexivity.
Qed.

Lemma shr_1_nonneg (r : shr_record) : 0 <= shr_m r -> 0 <= shr_m (shr_1 r).
Proof.
  intros H. rewrite shr_1_m by assumption. apply Z.div_pos; lia.
Qed.

Lemma iter_shr_1 (n : positive) :
  forall r, 0 <= shr_m r ->
    shr_m (iter_pos shr_1 n r) = shr_m r / 2 ^ Z.pos n.
Proof.
  induction n as [n IH|n IH|]; intros r Hr; cbn [iter_pos].
  - assert (H1 : 0 <= shr_m (shr_1 r)) by (apply shr_1_nonneg; assumption).
    assert (H2 : 0 <= shr_m (iter_pos shr_1 n (shr_1 r))).
    { rewrite IH by assumption. apply Z.div_pos; [assumption|]. apply Z.pow_pos_nonneg; lia. }
    rewrite IH, IH, shr_1_m by assumption.
    rewrite !Z.div_div by (try apply Z.pow_pos_nonneg; lia).
    f_equal.
    replace (Z.pos n~1) with (1 + Z.pos n + Z.pos n) by lia.
    rewrite !Z.pow_add_r by lia. lia.
  - assert (H2 : 0 <= shr_m (iter_pos shr_1 n r)).
    { rewrite IH by assumption. apply Z.div_pos; [assumption|]. apply Z.pow_pos_nonneg; lia. }
    rewrite IH, IH by assumption.
    rewrite !Z.div_div by (try apply Z.pow_pos_nonneg; lia).
    f_equal.
    replace (Z.pos n~0) with (Z.pos n + Z.pos n) by lia.
    rewrite !Z.pow_add_r by lia. lia.
  - rewrite shr_1_m by assumption. reflexivity.
Qed.

Lemma fexp_normal (e : Z) :
  -1021 <= e -> fexp Num.prec Num.emax e = e - 53.
Proof. unfold fexp, emin, Num.prec, Num.emax. lia. Qed.

Lemma shr_spec (r : shr_record) (e n : Z) :
  0 <= shr_m r -> 0 <= n ->
  shr_m (fst (shr r e n)) = shr_m r / 2 ^ n /\ snd (shr r e n) = e + n.
Proof.
  intros Hr Hn. destruct n as [|n|n]; cbn [shr fst snd].
  - rewrite Z.div_1_r. lia.
  - split; [apply iter_shr_1; assumption | reflexivity].
  - lia.
Qed.

Lemma shr_fexp_spec (M e : Z) (l : location) :
  0 < M -> -1021 <= Zdigits2 M + e -> 53 <= Zdigits2 M ->
  shr_m (fst (shr_fexp Num.prec Num.emax M e l)) = M / 2 ^ (Zdigits2 M - 53) /\
  snd (shr_fexp Num.prec Num.emax M e l) = e + (Zdigits2 M - 53).
Proof.
  intros HM Hn Hd. unfold shr_fexp. rewrite fexp_normal by assumption.
  replace (Zdigits2 M + e - 53 - e) with (Zdigits2 M - 53) by lia.
  assert (Hm : shr_m (shr_record_of_loc M l) = M) by (destruct l as [|[]]; reflexivity).
  rewrite <- Hm at 3. apply shr_spec; lia.
Qed.

Lemma round_nearest_even_cases (q : Z) (l : location) :
  round_nearest_even q l = q \/ round_nearest_even q l = q + 1.
Proof.
  destruct l as [|[]]; cbn [round_nearest_even]; auto.
  destruct (Z.even q); auto.
Qed.

(** Rounding an integer [M * 2^e] of at least 53 bits, away from the
    subnormal range and from overflow: the result is a 53-bit mantissa
    holding [M] cut to 53 bits, or that plus one unit in the last place. *)
Lemma binary_round_aux_spec (M : positive) (e : Z) :
  let D := Z.pos (digits2_pos M) in
  53 <= D -> -1021 <= D + e -> D + e <= 1023 ->
  exists (m' : positive) (e' : Z) (q' : Z),
    binary_round_aux Num.prec Num.emax false (Z.pos M) e loc_Exact =
      S754_finite false m' e' /\
    Z.pos (digits2_pos m') = 53 /\
    e + (D - 53) <= e' /\
    (q' = Z.pos M / 2 ^ (D - 53) \/ q' = Z.pos M / 2 ^ (D - 53) + 1) /\
    Z.pos m' * 2 ^ (e' - e) = q' * 2 ^ (D - 53).
Proof.
  intros D HD Hlo Hhi.
  pose proof (digits2_bounds M) as HM. fold D in HM.
  set (n := D - 53) in *.
  set (q := Z.pos M / 2 ^ n).
  assert (Hpn : 0 < 2 ^ n) by (apply Z.pow_pos_nonneg; lia).
  assert (Hq : 2 ^ 52 <= q < 2 ^ 53).
  { unfold q. replace (D - 1) with (52 + n) in HM by lia.
    replace D with (53 + n) in HM by lia.
    rewrite !Z.pow_add_r in HM by lia. split.
    - apply Z.div_le_lower_bound; lia.
    - apply Z.div_lt_upper_bound; lia. }
  unfold binary_round_aux.
  destruct (shr_fexp Num.prec Num.emax (Z.pos M) e loc_Exact) as [r1 e1] eqn:H1.
  pose proof (shr_fexp_spec (Z.pos M) e loc_Exact) as S1.
  rewrite H1 in S1. cbn [fst snd Zdigits2] in S1. fold D in S1. fold n in S1. fold q in S1.
  destruct S1 as [S1m S1e]; [lia|lia|lia|].
  rewrite S1m.
  destruct (round_nearest_even_cases q (loc_of_shr_record r1)) as [Hr|Hr]; rewrite Hr.
  - (* no increment *)
    destruct q as [|qp|qp] eqn:Eq; [lia| |lia].
    assert (Hdq : Z.pos (digits2_pos qp) = 53) by (apply digits2_unique; lia).
    destruct (shr_fexp Num.prec Num.emax (Z.pos qp) e1 loc_Exact) as [r2 e2] eqn:H2.
    pose proof (shr_fexp_spec (Z.pos qp) e1 loc_Exact) as S2.
    rewrite H2 in S2. cbn [fst snd Zdigits2] in S2. rewrite Hdq in S2.
    destruct S2 as [S2m S2e]; [lia|lia|lia|].
    rewrite S2m. change (2 ^ (53 - 53)) with 1. rewrite Z.div_1_r.
    replace (e2 <=? Num.emax - Num.prec) with true
      by (symmetry; apply Z.leb_le; unfold Num.emax, Num.prec; lia).
    exists qp, e2, (Z.pos qp).
    split; [reflexivity|]. split; [assumption|]. split; [lia|].
    split; [left; reflexivity|]. f_equal. f_equal. lia.
  - destruct (Z.eq_dec (q + 1) (2 ^ 53)) as [Hov|Hov].
    + (* the increment carries into a 54th bit *)
      rewrite Hov. change (2 ^ 53) with (Z.pos (2 ^ 53)).
      destruct (shr_fexp Num.prec Num.emax (Z.pos (2 ^ 53)) e1 loc_Exact) as [r2 e2] eqn:H2.
      pose proof (shr_fexp_spec (Z.pos (2 ^ 53)) e1 loc_Exact) as S2.
      rewrite H2 in S2. cbn [fst snd Zdigits2] in S2.
      change (Z.pos (digits2_pos (2 ^ 53))) with 54 in S2.
      destruct S2 as [S2m S2e]; [lia|lia|lia|].
      rewrite S2m. change (Z.pos (2 ^ 53) / 2 ^ (54 - 53)) with (Z.pos (2 ^ 52)).
      replace (e2 <=? Num.emax - Num.prec) with true
        by (symmetry; apply Z.leb_le; unfold Num.emax, Num.prec; lia).
      exists (2 ^ 52)%positive, e2, (2 ^ 53).
      split; [reflexivity|]. split; [reflexivity|]. split; [lia|].
      split; [right; reflexivity|].
      replace (e2 - e) with (1 + n) by lia.
      rewrite Z.pow_add_r by lia. change (Z.pos (2 ^ 52)) with (2 ^ 52). lia.
    + destruct (q + 1) as [|qp|qp] eqn:Eq; [lia| |lia].
      assert (Hdq : Z.pos (digits2_pos qp) = 53) by (apply digits2_unique; lia).
      destruct (shr_fexp Num.prec Num.emax (Z.pos qp) e1 loc_Exact) as [r2 e2] eqn:H2.
      pose proof (shr_fexp_spec (Z.pos qp) e1 loc_Exact) as S2.
      rewrite H2 in S2. cbn [fst snd Zdigits2] in S2. rewrite Hdq in S2.
      destruct S2 as [S2m S2e]; [lia|lia|lia|].
      rewrite S2m. change (2 ^ (53 - 53)) with 1. rewrite Z.div_1_r.
      replace (e2 <=? Num.emax - Num.prec) with true
        by (symmetry; apply Z.leb_le; unfold Num.emax, Num.prec; lia).
      exists qp, e2, (Z.pos qp).
      split; [reflexivity|]. split; [assumption|]. split; [lia|].
      split; [right; lia|]. f_equal. f_equal. lia.
Qed.

Lemma digits_lower (p : positive) (k : Z) :
  0 <= k -> 2 ^ k <= Z.pos p -> k < Z.pos (digits2_pos p).
Proof.
  intros Hk H. pose proof (digits2_bounds p) as [_ Hhi].
  apply (Z.pow_lt_mono_r_iff 2); lia.
Qed.

Lemma digits_upper (p : positive) (k : Z) :
  0 <= k -> Z.pos p < 2 ^ k -> Z.pos (digits2_pos p) <= k.
Proof.
  intros Hk H. pose proof (digits2_bounds p) as [Hlo _].
  assert (Z.pos (digits2_pos p) - 1 < k); [|lia].
  apply (Z.pow_lt_mono_r_iff 2); lia.
Qed.

Lemma shl_align_id (p : positive) (e e' : Z) :
  e <= e' -> shl_align p e e' = (p, e).
Proof.
  intros H. unfold shl_align. destruct (e' - e) eqn:E; try reflexivity. lia.
Qed.

Lemma shl_align_exp (p : positive) (e e' : Z) :
  e' <= e -> snd (shl_align p e e') = e'.
Proof.
  intros H. unfold shl_align. destruct (e' - e) eqn:E; cbn [snd]; lia.
Qed.

Lemma binary_round_aux_exact (q : positive) (e : Z) :
  Z.pos (digits2_pos q) = 53 -> -1021 <= 53 + e -> 53 + e <= 1023 ->
  binary_round_aux Num.prec Num.emax false (Z.pos q) e loc_Exact =
    S754_finite false q e.
Proof.
  intros Hd Hlo Hhi. unfold binary_round_aux, shr_fexp.
  cbn [Zdigits2]. rewrite Hd, fexp_normal by assumption.
  replace (53 + e - 53 - e) with 0 by lia.
  cbn [shr shr_record_of_loc shr_m loc_of_shr_record round_nearest_even Zdigits2].
  rewrite Hd, fexp_normal by assumption.
  replace (53 + e - 53 - e) with 0 by lia.
  cbn [shr shr_record_of_loc shr_m].
  replace (e <=? Num.emax - Num.prec) with true
    by (symmetry; apply Z.leb_le; unfold Num.emax, Num.prec; lia).
  reflexivity.
Qed.

(** Two 53-bit mantissas are ordered by exponent first, as their values
    are. *)
Lemma lex_of_value (m1 m2 : positive) (e1 e2 b : Z) :
  Z.pos (digits2_pos m1) = 53 -> Z.pos (digits2_pos m2) = 53 ->
  b <= e1 -> b <= e2 ->
  Z.pos m1 * 2 ^ (e1 - b) < Z.pos m2 * 2 ^ (e2 - b) ->
  e1 < e2 \/ (e1 = e2 /\ Z.pos m1 < Z.pos m2).
Proof.
  intros D1 D2 B1 B2 H.
  pose proof (digits2_bounds m1) as H1. rewrite D1 in H1.
  pose proof (digits2_bounds m2) as H2. rewrite D2 in H2.
  change (2 ^ (53 - 1)) with 4503599627370496 in *.
  change (2 ^ 53) with 9007199254740992 in *.
  destruct (Z.lt_trichotomy e1 e2) as [Hlt|[Heq|Hgt]]; [left; assumption| |].
  - right. split; [assumption|]. subst e2.
    assert (0 < 2 ^ (e1 - b)) by (apply Z.pow_pos_nonneg; lia). nia.
  - exfalso.
    assert (HP : 0 < 2 ^ (e2 - b)) by (apply Z.pow_pos_nonneg; lia).
    assert (HK : 2 ^ 1 <= 2 ^ (e1 - e2)) by (apply Z.pow_le_mono_r; lia).
    change (2 ^ 1) with 2 in HK.
    replace (e1 - b) with ((e1 - e2) + (e2 - b)) in H by lia.
    rewrite Z.pow_add_r in H by lia.
    set (K := 2 ^ (e1 - e2)) in *. set (P := 2 ^ (e2 - b)) in *.
    assert (9007199254740992 <= Z.pos m1 * K) by nia.
    assert (9007199254740992 * P <= Z.pos m1 * K * P) by nia.
    nia.
Qed.

Lemma value_of_lex (m1 m2 : positive) (e1 e2 b : Z) :
  Z.pos (digits2_pos m1) = 53 -> Z.pos (digits2_pos m2) = 53 ->
  b <= e1 -> b <= e2 ->
  e1 < e2 \/ (e1 = e2 /\ Z.pos m1 < Z.pos m2) ->
  Z.pos m1 * 2 ^ (e1 - b) < Z.pos m2 * 2 ^ (e2 - b).
Proof.
  intros D1 D2 B1 B2 H.
  destruct (Z.lt_ge_cases (Z.pos m1 * 2 ^ (e1 - b)) (Z.pos m2 * 2 ^ (e2 - b)))
    as [|Hge]; [assumption|exfalso].
  destruct (Z.eq_dec (Z.pos m1 * 2 ^ (e1 - b)) (Z.pos m2 * 2 ^ (e2 - b))) as [Heq|Hne].
  - destruct (Z.lt_trichotomy e1 e2) as [Hlt|[Heq'|Hgt]]; [ | | lia].
    + pose proof (digits2_bounds m1) as H1. rewrite D1 in H1.
      pose proof (digits2_bounds m2) as H2. rewrite D2 in H2.
      change (2 ^ (53 - 1)) with 4503599627370496 in *.
      change (2 ^ 53) with 9007199254740992 in *.
      assert (HP : 0 < 2 ^ (e1 - b)) by (apply Z.pow_pos_nonneg; lia).
      assert (HK : 2 ^ 1 <= 2 ^ (e2 - e1)) by (apply Z.pow_le_mono_r; lia).
      change (2 ^ 1) with 2 in HK.
      replace (e2 - b) with ((e2 - e1) + (e1 - b)) in Heq by lia.
      rewrite Z.pow_add_r in Heq by lia.
      set (K := 2 ^ (e2 - e1)) in *. set (P := 2 ^ (e1 - b)) in *.
      assert (9007199254740992 <= Z.pos m2 * K) by nia.
      assert (9007199254740992 * P <= Z.pos m2 * K * P) by nia.
      nia.
    + subst e2. assert (0 < 2 ^ (e1 - b)) by (apply Z.pow_pos_nonneg; lia). nia.
  - assert (Hlt : Z.pos m2 * 2 ^ (e2 - b) < Z.pos m1 * 2 ^ (e1 - b)) by lia.
    apply lex_of_value in Hlt; try assumption. lia.
Qed.

Lemma trunc_lower (M P q' X T : Z) :
  0 < P -> q' = M / P \/ q' = M / P + 1 ->
  M = X + T -> P <= T -> X < q' * P.
Proof.
  intros HP Hq HM HT.
  pose proof (Z.div_mod M P) as Hdm.
  pose proof (Z.mod_pos_bound M P HP) as Hmod.
  set (q := M / P) in *. set (r := M mod P) in *.
  destruct Hq as [-> | ->]; lia.
Qed.

Lemma trunc_upper (M P q' X T : Z) :
  0 < P -> q' = M / P \/ q' = M / P + 1 ->
  M = X - T -> P < T -> q' * P < X.
Proof.
  intros HP Hq HM HT.
  pose proof (Z.div_mod M P) as Hdm.
  pose proof (Z.mod_pos_bound M P HP) as Hmod.
  set (q := M / P) in *. set (r := M mod P) in *.
  destruct Hq as [-> | ->]; lia.
Qed.

Section AddSub.

Variables (md mt : positive) (ed et : Z).
Hypothesis Dd : Z.pos (digits2_pos md) = 53.
Hypothesis Dt : Z.pos (digits2_pos mt) = 53.
Hypothesis Bd : -1000 <= ed <= 900.
Hypothesis Bt : -1000 <= et <= 900.
(** The second operand is at least four units in the last place of the
    first. *)
Hypothesis Hulp : ed <= et + 51.

Let ez := Z.min ed et.
Let X := Z.pos md * 2 ^ (ed - ez).
Let T := Z.pos mt * 2 ^ (et - ez).

Lemma aligned_bounds :
  2 ^ (52 + ed - ez) <= X < 2 ^ (53 + ed - ez) /\
  2 ^ (52 + et - ez) <= T < 2 ^ (53 + et - ez).
Proof.
  pose proof (digits2_bounds md) as H1. rewrite Dd in H1.
  pose proof (digits2_bounds mt) as H2. rewrite Dt in H2.
  unfold X, T.
  replace (52 + ed - ez) with (52 + (ed - ez)) by lia.
  replace (53 + ed - ez) with (53 + (ed - ez)) by lia.
  replace (52 + et - ez) with (52 + (et - ez)) by lia.
  replace (53 + et - ez) with (53 + (et - ez)) by lia.
  rewrite !Z.pow_add_r by (unfold ez; lia).
  assert (0 < 2 ^ (ed - ez)) by (apply Z.pow_pos_nonneg; unfold ez; lia).
  assert (0 < 2 ^ (et - ez)) by (apply Z.pow_pos_nonneg; unfold ez; lia).
  change (2 ^ (53 - 1)) with (2 ^ 52) in *. nia.
Qed.

Lemma add_gt :
  Num.lt (S754_finite false md ed)
         (Num.add (S754_finite false md ed) (S754_finite false mt et)) = true.
Proof.
  destruct aligned_bounds as [HX HT].
  unfold Num.add, SFadd. cbn [cond_Zopp]. fold ez.
  set (a := fst (shl_align md ed ez)). set (b := fst (shl_align mt et ez)).
  assert (Ha : Z.pos a = X) by (apply shl_align_value; unfold ez; lia).
  assert (Hb : Z.pos b = T) by (apply shl_align_value; unfold ez; lia).
  change (Z.pos a + Z.pos b) with (Z.pos (a + b)).
  cbn [binary_normalize]. unfold binary_round.
  set (M := (a + b)%positive).
  assert (HM : Z.pos M = X + T) by (unfold M; lia).
  set (D := Z.pos (digits2_pos M)).
  assert (HD1 : 52 + ed - ez < D).
  { apply digits_lower; [unfold ez; lia|]. lia. }
  assert (HD2 : D <= 54 + Z.max ed et - ez).
  { apply digits_upper; [unfold ez; lia|].
    assert (2 ^ (53 + ed - ez) <= 2 ^ (53 + Z.max ed et - ez))
      by (apply Z.pow_le_mono_r; lia).
    assert (2 ^ (53 + et - ez) <= 2 ^ (53 + Z.max ed et - ez))
      by (apply Z.pow_le_mono_r; lia).
    replace (54 + Z.max ed et - ez) with (1 + (53 + Z.max ed et - ez)) by lia.
    rewrite Z.pow_add_r by (unfold ez; lia). change (2 ^ 1) with 2. lia. }
  rewrite fexp_normal by (unfold ez in *; lia).
  rewrite shl_align_id by (unfold ez in *; lia).
  destruct (binary_round_aux_spec M ez) as (m' & e' & q' & -> & Dm' & He' & Hq' & Hv);
    fold D; try (unfold ez in *; lia).
  fold D in He', Hq', Hv.
  apply NumFacts.lt_fin.
  apply (lex_of_value md m' ed e' ez); try assumption; try (unfold ez in *; lia).
  fold X. rewrite Hv.
  set (n := D - 53) in *.
  assert (Hn : 0 < 2 ^ n) by (apply Z.pow_pos_nonneg; unfold ez in *; lia).
  assert (HTn : 2 ^ n <= T).
  { assert (2 ^ n <= 2 ^ (52 + et - ez)) by (apply Z.pow_le_mono_r; unfold ez in *; lia).
    lia. }
  apply (trunc_lower (Z.pos M) (2 ^ n) q' X T); assumption.
Qed.

Hypothesis Hlt : et < ed \/ (et = ed /\ Z.pos mt < Z.pos md).

Lemma sub_lt :
  Num.lt (Num.sub (S754_finite false md ed) (S754_finite false mt et))
         (S754_finite false md ed) = true.
Proof.
  destruct aligned_bounds as [HX HT].
  assert (HTX : T < X).
  { apply value_of_lex; try assumption; unfold ez; lia. }
  unfold Num.sub, SFsub. cbn [cond_Zopp]. fold ez.
  set (a := fst (shl_align md ed ez)). set (b := fst (shl_align mt et ez)).
  assert (Ha : Z.pos a = X) by (apply shl_align_value; unfold ez; lia).
  assert (Hb : Z.pos b = T) by (apply shl_align_value; unfold ez; lia).
  change (Z.pos a - Z.pos b) with (Z.pos_sub a b).
  rewrite Z.pos_sub_gt by lia.
  cbn [binary_normalize]. unfold binary_round.
  set (M := (a - b)%positive).
  assert (HM : Z.pos M = X - T) by (unfold M; lia).
  set (D := Z.pos (digits2_pos M)).
  assert (HD1 : 0 < D) by (unfold D; lia).
  assert (HD2 : D <= 53 + ed - ez).
  { apply digits_upper; [unfold ez; lia|]. lia. }
  rewrite fexp_normal by (unfold ez in *; lia).
  destruct (Z.le_gt_cases D 53) as [Hsmall|Hbig].
  - (* the difference fits 53 bits: it is exact *)
    destruct (shl_align M ez (D + ez - 53)) as [mz e'] eqn:Hsh.
    assert (He' : e' = D + ez - 53).
    { change e' with (snd (mz, e')). rewrite <- Hsh. apply shl_align_exp. lia. }
    assert (Hmz : Z.pos mz = Z.pos M * 2 ^ (53 - D)).
    { change mz with (fst (mz, e')). rewrite <- Hsh.
      rewrite shl_align_value by lia. f_equal. f_equal. lia. }
    assert (Dmz : Z.pos (digits2_pos mz) = 53).
    { apply digits2_unique. rewrite Hmz.
      pose proof (digits2_bounds M) as HB. fold D in HB.
      assert (E1 : 2 ^ (53 - 1) = 2 ^ (D - 1) * 2 ^ (53 - D))
        by (rewrite <- Z.pow_add_r by lia; f_equal; lia).
      assert (E2 : 2 ^ 53 = 2 ^ D * 2 ^ (53 - D))
        by (rewrite <- Z.pow_add_r by lia; f_equal; lia).
      rewrite E1, E2.
      assert (0 < 2 ^ (53 - D)) by (apply Z.pow_pos_nonneg; lia).
      split.
      - apply Z.mul_le_mono_nonneg_r; lia.
      - apply Z.mul_lt_mono_pos_r; lia. }
    rewrite binary_round_aux_exact by (try assumption; unfold ez in *; lia).
    apply NumFacts.lt_fin.
    destruct (Z.eq_dec e' ed) as [Heq|Hne]; [right|left; unfold ez in *; lia].
    split; [assumption|].
    assert (D = 53) by (unfold ez in *; lia).
    assert (ez = ed) by (unfold ez in *; lia).
    rewrite Hmz, HM. unfold X, T.
    replace (53 - D) with 0 by lia. replace (ed - ez) with 0 by lia.
    change (2 ^ 0) with 1.
    assert (0 < 2 ^ (et - ez)) by (apply Z.pow_pos_nonneg; unfold ez; lia). nia.
  - rewrite shl_align_id by lia.
    destruct (binary_round_aux_spec M ez) as (m' & e' & q' & -> & Dm' & He' & Hq' & Hv);
      fold D; try (unfold ez in *; lia).
    fold D in He', Hq', Hv.
    apply NumFacts.lt_fin.
    apply (lex_of_value m' md e' ed ez); try assumption; try (unfold ez in *; lia).
    fold X. rewrite Hv.
    set (n := D - 53) in *.
    assert (Hn : 0 < 2 ^ n) by (apply Z.pow_pos_nonneg; lia).
    assert (HTn : 2 ^ n < T).
    { assert (2 ^ n < 2 ^ (52 + et - ez)) by (apply Z.pow_lt_mono_r; unfold ez in *; lia).
      lia. }
    apply (trunc_upper (Z.pos M) (2 ^ n) q' X T); assumption.
Qed.

End AddSub.

End Rounding.

(** ** Well-formedness

    [binary_round_aux] returns a canonical mantissa and exponent whenever
    it is called the way [binary_round] and [SFdiv] call it, so every
    number that comes out of [parseFloat] is a well-formed double. *)

Module Validity.

Import Rounding.

Local Notation "'fexp64'" := (fexp Num.prec Num.emax).

Lemma fexp_eq (x : Z) : fexp64 x = Z.max (x - 53) (-1074).
Proof. reflexivity. Qed.

Lemma Zdigits2_nonneg (x : Z) : 0 <= Zdigits2 x.
Proof. destruct x; cbn; lia. Qed.

Lemma Zdigits2_bounds (x : Z) :
  0 < x -> 2 ^ (Zdigits2 x - 1) <= x < 2 ^ Zdigits2 x.
Proof. destruct x as [|p|p]; try lia. intros _. apply digits2_bounds. Qed.

Lemma Zdigits2_unique (x k : Z) :
  0 < x -> 2 ^ (k - 1) <= x < 2 ^ k -> Zdigits2 x = k.
Proof. destruct x as [|p|p]; try lia. intros _. apply digits2_unique. Qed.

Lemma Zdigits2_pos (x : Z) : 0 < x -> 0 < Zdigits2 x.
Proof. destruct x; cbn; lia. Qed.

(** Dropping [n] low bits drops [n] from the bit length. *)
Lemma Zdigits2_div (x n : Z) :
  0 < x -> 0 <= n ->
  (Zdigits2 x <= n /\ x / 2 ^ n = 0) \/
  (n < Zdigits2 x /\ 0 < x / 2 ^ n /\ Zdigits2 (x / 2 ^ n) = Zdigits2 x - n).
Proof.
  intros Hx Hn. pose proof (Zdigits2_bounds x Hx) as [Hlo Hhi].
  set (D := Zdigits2 x) in *.
  assert (HP : 0 < 2 ^ n) by (apply Z.pow_pos_nonneg; lia).
  destruct (Z.le_gt_cases D n) as [Hle|Hgt].
  - left. split; [assumption|]. apply Z.div_small. split; [lia|].
    assert (2 ^ D <= 2 ^ n) by (apply Z.pow_le_mono_r; lia). lia.
  - right. split; [assumption|].
    assert (E1 : 2 ^ (D - 1) = 2 ^ (D - n - 1) * 2 ^ n)
      by (rewrite <- Z.pow_add_r by lia; f_equal; lia).
    assert (E2 : 2 ^ D = 2 ^ (D - n) * 2 ^ n)
      by (rewrite <- Z.pow_add_r by lia; f_equal; lia).
    assert (Hq : 2 ^ (D - n - 1) <= x / 2 ^ n < 2 ^ (D - n)).
    { split.
      - apply Z.div_le_lower_bound; [assumption|]. lia.
      - apply Z.div_lt_upper_bound; [assumption|]. lia. }
    assert (0 < 2 ^ (D - n - 1)) by (apply Z.pow_pos_nonneg; lia).
    split; [lia|]. apply Zdigits2_unique; [lia|assumption].
Qed.

(** Adding one keeps the bit length, unless it reaches the next power of
    two. *)
Lemma Zdigits2_succ (x : Z) :
  0 < x ->
  Zdigits2 (x + 1) = Zdigits2 x \/
  (x + 1 = 2 ^ Zdigits2 x /\ Zdigits2 (x + 1) = Zdigits2 x + 1).
Proof.
  intros Hx. pose proof (Zdigits2_bounds x Hx) as [Hlo Hhi].
  pose proof (Zdigits2_pos x Hx) as HD.
  set (D := Zdigits2 x) in *.
  destruct (Z.eq_dec (x + 1) (2 ^ D)) as [E|N].
  - right. split; [assumption|]. apply Zdigits2_unique; [lia|].
    replace (D + 1 - 1) with D by lia. rewrite Z.pow_add_r by lia.
    change (2 ^ 1) with 2. lia.
  - left. apply Zdigits2_unique; lia.
Qed.

Lemma shr_record_of_loc_m (x : Z) (l : location) :
  shr_m (shr_record_of_loc x l) = x.
Proof. destruct l as [|[]]; reflexivity. Qed.

Lemma shr_fexp_gen (x e : Z) (l : location) :
  0 <= x -> e <= fexp64 (Zdigits2 x + e) ->
  shr_m (fst (shr_fexp Num.prec Num.emax x e l)) =
    x / 2 ^ (fexp64 (Zdigits2 x + e) - e) /\
  snd (shr_fexp Num.prec Num.emax x e l) = fexp64 (Zdigits2 x + e).
Proof.
  intros Hx Hn. unfold shr_fexp.
  destruct (shr_spec (shr_record_of_loc x l) e (fexp64 (Zdigits2 x + e) - e))
    as [Hm He]; [rewrite shr_record_of_loc_m; lia | lia |].
  rewrite shr_record_of_loc_m in Hm. split; [assumption|lia].
Qed.

Lemma shr_fexp_zero (e : Z) (l : location) :
  shr_m (fst (shr_fexp Num.prec Num.emax 0 e l)) = 0.
Proof.
  unfold shr_fexp, shr.
  destruct (fexp Num.prec Num.emax (Zdigits2 0 + e) - e) as [|p|p]; cbn [fst];
    try apply shr_record_of_loc_m.
  rewrite iter_shr_1 by (rewrite shr_record_of_loc_m; lia).
  rewrite shr_record_of_loc_m. reflexivity.
Qed.

(** The second pass of [binary_round_aux]: a mantissa that is canonical,
    or a power of two one bit too long, comes out canonical. *)
Lemma second_pass (x e : Z) :
  0 < x ->
  fexp64 (Zdigits2 x + e) = e \/
  (fexp64 (Zdigits2 x + e) = e + 1 /\ x = 2 ^ (Zdigits2 x - 1) /\
   2 <= Zdigits2 x) ->
  let r := shr_fexp Num.prec Num.emax x e loc_Exact in
  0 < shr_m (fst r) /\ fexp64 (Zdigits2 (shr_m (fst r)) + snd r) = snd r.
Proof.
  intros Hx Hc r.
  destruct (shr_fexp_gen x e loc_Exact) as [Hm He]; [lia | destruct Hc; lia |].
  fold r in Hm, He. rewrite Hm, He.
  destruct Hc as [Hc|(Hc & Hp & HD)]; rewrite Hc.
  - replace (e - e) with 0 by lia. change (2 ^ 0) with 1. rewrite Z.div_1_r.
    split; [assumption|assumption].
  - replace (e + 1 - e) with 1 by lia. change (2 ^ 1) with 2.
    set (D := Zdigits2 x) in *.
    assert (Hx2 : x / 2 = 2 ^ (D - 2)).
    { rewrite Hp. replace (D - 1) with (1 + (D - 2)) by lia.
      rewrite Z.pow_add_r by lia. change (2 ^ 1) with 2.
      rewrite Z.mul_comm, Z.div_mul by lia. reflexivity. }
    assert (0 < 2 ^ (D - 2)) by (apply Z.pow_pos_nonneg; lia).
    rewrite Hx2. split; [assumption|].
    assert (HD' : Zdigits2 (2 ^ (D - 2)) = D - 1).
    { apply Zdigits2_unique; [assumption|].
      replace (D - 1 - 1) with (D - 2) by lia. split; [lia|].
      apply Z.pow_lt_mono_r; lia. }
    rewrite HD'. replace (D - 1 + (e + 1)) with (D + e) by lia. assumption.
Qed.

(** [binary_round_aux] yields a well-formed double whenever its input
    mantissa has no more room to the left than the format allows. *)
Lemma binary_round_aux_valid (sx : bool) (mx ex : Z) (lx : location) :
  0 <= mx -> ex <= fexp64 (Zdigits2 mx + ex) ->
  Num.is_double (binary_round_aux Num.prec Num.emax sx mx ex lx) = true.
Proof.
  intros Hmx Hpre. unfold binary_round_aux.
  destruct (shr_fexp_gen mx ex lx Hmx Hpre) as [Hm1 He1].
  destruct (shr_fexp Num.prec Num.emax mx ex lx) as [r1 e1].
  cbn [fst snd] in Hm1, He1.
  set (n1 := fexp64 (Zdigits2 mx + ex) - ex) in *.
  set (m2 := round_nearest_even (shr_m r1) (loc_of_shr_record r1)).
  assert (Hm2 : m2 = 0 \/
                (0 < m2 /\
                 (fexp64 (Zdigits2 m2 + e1) = e1 \/
                  (fexp64 (Zdigits2 m2 + e1) = e1 + 1 /\
                   m2 = 2 ^ (Zdigits2 m2 - 1) /\ 2 <= Zdigits2 m2)))).
  { assert (Hcase : shr_m r1 = 0 /\ e1 = -1074 \/
                    0 < shr_m r1 /\ fexp64 (Zdigits2 (shr_m r1) + e1) = e1).
    { destruct (Z.eq_dec mx 0) as [->|Hnz].
      - left. rewrite Hm1. split; [reflexivity|].
        cbn [Zdigits2] in *. rewrite fexp_eq in *. lia.
      - destruct (Zdigits2_div mx n1) as [[Hd Hz]|(Hd & Hq & HD)]; [lia|lia| |].
        + left. rewrite Hm1. split; [assumption|].
          unfold n1 in Hd. rewrite fexp_eq in *. lia.
        + right. rewrite Hm1. split; [assumption|]. rewrite HD.
          unfold n1. rewrite He1. f_equal. lia. }
    destruct (round_nearest_even_cases (shr_m r1) (loc_of_shr_record r1))
      as [Hr|Hr]; fold m2 in Hr; rewrite Hr.
    - destruct Hcase as [[Hz _]|[Hp Hc]]; [left; assumption|right].
      split; [assumption|left; assumption].
    - right. destruct Hcase as [[Hz He]|[Hp Hc]].
      + rewrite Hz. split; [lia|left]. rewrite He. reflexivity.
      + split; [lia|].
        destruct (Zdigits2_succ (shr_m r1) Hp) as [Hs|[Hs1 Hs2]].
        * left. rewrite Hs. assumption.
        * rewrite Hs2. pose proof (Zdigits2_pos _ Hp).
          rewrite fexp_eq in *.
          destruct (Z.eq_dec (Z.max (Zdigits2 (shr_m r1) + 1 + e1 - 53) (-1074)) e1)
            as [E|N]; [left; assumption|right].
          split; [lia|]. split; [|lia].
          rewrite Hs1. f_equal. lia. }
  destruct Hm2 as [->|[Hp Hc]].
  - pose proof (shr_fexp_zero e1 loc_Exact) as Hz.
    destruct (shr_fexp Num.prec Num.emax 0 e1 loc_Exact) as [r2 e2].
    cbn [fst] in Hz. rewrite Hz. reflexivity.
  - pose proof (second_pass m2 e1 Hp Hc) as [H3 H4].
    destruct (shr_fexp Num.prec Num.emax m2 e1 loc_Exact) as [r2 e2].
    cbn [fst snd] in H3, H4.
    destruct (shr_m r2) as [|m3|m3]; [lia| |lia].
    destruct (e2 <=? Num.emax - Num.prec) eqn:Hb; [|reflexivity].
    unfold Num.is_double, valid_binary, bounded, canonical_mantissa.
    rewrite Hb, andb_true_r. apply Z.eqb_eq. exact H4.
Qed.

Lemma Zdigits2_shift (x k : Z) :
  0 < x -> 0 <= k -> Zdigits2 (x * 2 ^ k) = Zdigits2 x + k.
Proof.
  intros Hx Hk. pose proof (Zdigits2_bounds x Hx) as [Hlo Hhi].
  pose proof (Zdigits2_pos x Hx) as HD.
  assert (HP : 0 < 2 ^ k) by (apply Z.pow_pos_nonneg; lia).
  apply Zdigits2_unique; [lia|].
  replace (Zdigits2 x + k - 1) with ((Zdigits2 x - 1) + k) by lia.
  rewrite !Z.pow_add_r by lia. split.
  - apply Z.mul_le_mono_nonneg_r; lia.
  - apply Z.mul_lt_mono_pos_r; lia.
Qed.

Lemma binary_round_valid (sx : bool) (mx : positive) (ex : Z) :
  Num.is_double (binary_round Num.prec Num.emax sx mx ex) = true.
Proof.
  unfold binary_round.
  set (f0 := fexp64 (Z.pos (digits2_pos mx) + ex)).
  destruct (Z.le_gt_cases ex f0) as [Hle|Hgt].
  - rewrite shl_align_id by assumption.
    apply binary_round_aux_valid; [lia|]. cbn [Zdigits2]. fold f0. assumption.
  - pose proof (shl_align_value mx ex f0) as Hv.
    pose proof (shl_align_exp mx ex f0) as He.
    destruct (shl_align mx ex f0) as [mz ez]. cbn [fst snd] in Hv, He.
    rewrite He by lia.
    apply binary_round_aux_valid; [lia|].
    rewrite Hv by lia.
    rewrite Zdigits2_shift by lia. cbn [Zdigits2].
    replace (Z.pos (digits2_pos mx) + (ex - f0) + f0)
      with (Z.pos (digits2_pos mx) + ex) by lia.
    fold f0. lia.
Qed.

Lemma SFdiv_valid (sx sy : bool) (mx my : positive) (ex ey : Z) :
  Num.is_double
    (SFdiv Num.prec Num.emax (S754_finite sx mx ex) (S754_finite sy my ey)) = true.
Proof.
  cbn [SFdiv]. unfold SFdiv_core_binary.
  set (d1 := Zdigits2 (Z.pos mx)). set (d2 := Zdigits2 (Z.pos my)).
  set (e' := Z.min (fexp64 (d1 + ex - (d2 + ey))) (ex - ey)).
  set (s := ex - ey - e').
  assert (Hs : 0 <= s) by (unfold s, e'; lia).
  set (m' := match s with Z.pos _ => Z.shiftl (Z.pos mx) s | 0 => Z.pos mx | Z.neg _ => 0 end).
  assert (Hm' : m' = Z.pos mx * 2 ^ s).
  { unfold m'. destruct s as [|p|p]; [cbn; lia | apply Z.shiftl_mul_pow2; lia | lia]. }
  pose proof (Z_div_mod m' (Z.pos my) eq_refl) as Hdm.
  assert (Hq : fst (Z.div_eucl m' (Z.pos my)) = m' / Z.pos my) by reflexivity.
  destruct (Z.div_eucl m' (Z.pos my)) as [q r]. cbn [fst] in Hq.
  assert (HP : 0 < 2 ^ s) by (apply Z.pow_pos_nonneg; lia).
  assert (Hq0 : 0 <= q) by (rewrite Hq; apply Z.div_pos; lia).
  apply binary_round_aux_valid; [assumption|].
  assert (HD : d1 + s - d2 <= Zdigits2 q).
  { destruct (Z.le_gt_cases (d1 + s - d2) 0) as [Hn|Hp].
    - pose proof (Zdigits2_nonneg q). lia.
    - assert (H1 : 2 ^ (d1 - 1) <= Z.pos mx) by (apply digits2_bounds).
      assert (H2 : Z.pos my < 2 ^ d2) by (apply digits2_bounds).
      assert (Hd1 : 0 < d1) by (unfold d1; cbn; lia).
      assert (Hd2 : 0 < d2) by (unfold d2; cbn; lia).
      set (k := d1 + s - d2 - 1).
      assert (Hk : 2 ^ k <= q).
      { rewrite Hq. apply Z.div_le_lower_bound; [lia|].
        rewrite Hm'.
        assert (E : 2 ^ (d1 - 1) * 2 ^ s = 2 ^ d2 * 2 ^ k).
        { rewrite <- !Z.pow_add_r by (unfold k; lia). f_equal. unfold k. lia. }
        assert (0 < 2 ^ k) by (apply Z.pow_pos_nonneg; unfold k; lia).
        assert (Z.pos my * 2 ^ k <= 2 ^ d2 * 2 ^ k)
          by (apply Z.mul_le_mono_nonneg_r; lia).
        assert (2 ^ (d1 - 1) * 2 ^ s <= Z.pos mx * 2 ^ s)
          by (apply Z.mul_le_mono_nonneg_r; lia).
        lia. }
      assert (0 < 2 ^ k) by (apply Z.pow_pos_nonneg; unfold k; lia).
      destruct q as [|qp|qp]; [lia| |lia].
      cbn [Zdigits2]. pose proof (digits_lower qp k). unfold k in *. lia. }
  assert (Hmono : fexp64 (d1 + ex - (d2 + ey)) <= fexp64 (Zdigits2 q + e')).
  { rewrite !fexp_eq. unfold s in HD. lia. }
  unfold e' at 1. lia.
Qed.

Lemma of_decimal_valid (neg : bool) (mant : N) (e : Z) :
  Num.is_double (Num.of_decimal neg mant e) = true.
Proof.
  unfold Num.of_decimal. destruct mant as [|p]; [reflexivity|].
  destruct e as [|k|k]; try apply binary_round_valid. apply SFdiv_valid.
Qed.

(** Whatever the string, [parseFloat] returns a well-formed double (or
    NaN, or an infinity). *)
Lemma parseFloat_valid (s : string) :
  Num.is_double (Builtins.parseFloat s) = true.
Proof.
  unfold Builtins.parseFloat.
  destruct (Builtins.scan_sign (Builtins.trim_start s)) as [neg r].
  destruct (Builtins.scan_unsigned r) as [[[|mant e] r']|]; try reflexivity.
  apply of_decimal_valid.
Qed.

End Validity.

(** ** The shape of sums and differences

    Sums and differences of positive doubles away from overflow are
    positive finite doubles with a full significand; their exponent is
    bounded by those of the operands. *)

Module Shape.

Import Rounding.

(** The exponent of a rounded result is at most one above that of the
    53 leading bits of what was rounded. *)
Lemma round_exponent_upper (M m' : positive) (e e' q' : Z) :
  let D := Z.pos (digits2_pos M) in
  53 <= D ->
  Z.pos (digits2_pos m') = 53 ->
  e + (D - 53) <= e' ->
  q' = Z.pos M / 2 ^ (D - 53) \/ q' = Z.pos M / 2 ^ (D - 53) + 1 ->
  Z.pos m' * 2 ^ (e' - e) = q' * 2 ^ (D - 53) ->
  e' <= e + D - 52.
Proof.
  intros D HD Dm He Hq Hv.
  pose proof (digits2_bounds M) as HM. fold D in HM.
  pose proof (digits2_bounds m') as Hm'. rewrite Dm in Hm'.
  change (2 ^ (53 - 1)) with (2 ^ 52) in Hm'.
  set (n := D - 53) in *. set (a := e' - e) in *.
  assert (Hn : 0 < 2 ^ n) by (apply Z.pow_pos_nonneg; lia).
  assert (Ha : 0 < 2 ^ a) by (apply Z.pow_pos_nonneg; lia).
  assert (Hq53 : q' <= 2 ^ 53).
  { assert (Z.pos M / 2 ^ n < 2 ^ 53).
    { apply Z.div_lt_upper_bound; [assumption|].
      rewrite <- Z.pow_add_r by lia. replace (n + 53) with D by lia. lia. }
    lia. }
  assert (H1 : 2 ^ 52 * 2 ^ a <= Z.pos m' * 2 ^ a)
    by (apply Z.mul_le_mono_nonneg_r; lia).
  assert (H2 : q' * 2 ^ n <= 2 ^ 53 * 2 ^ n)
    by (apply Z.mul_le_mono_nonneg_r; lia).
  assert (H3 : 2 ^ a <= 2 ^ (n + 1)).
  { rewrite Z.pow_add_r by lia. change (2 ^ 1) with 2.
    change (2 ^ 53) with (2 ^ 52 * 2) in H2. lia. }
  apply Z.pow_le_mono_r_iff in H3; lia.
Qed.

Section AddSubShape.

Variables (md mt : positive) (ed et : Z).
Hypothesis Dd : Z.pos (digits2_pos md) = 53.
Hypothesis Dt : Z.pos (digits2_pos mt) = 53.
Hypothesis Bd : -1000 <= ed <= 900.
Hypothesis Bt : -1000 <= et <= 900.
Hypothesis Hulp : ed <= et + 51.

(** Away from overflow the sum of two positive doubles is a positive
    finite double. *)
Lemma add_finite :
  exists mz ez,
    Num.add (S754_finite false md ed) (S754_finite false mt et) =
    S754_finite false mz ez /\
    Z.pos (digits2_pos mz) = 53 /\ ez <= Z.max ed et + 2.
Proof.
  destruct (aligned_bounds md mt ed et Dd Dt) as [HX HT].
  set (ez := Z.min ed et) in *.
  unfold Num.add, SFadd. cbn [cond_Zopp]. fold ez.
  set (a := fst (shl_align md ed ez)). set (b := fst (shl_align mt et ez)).
  assert (Ha : Z.pos a = Z.pos md * 2 ^ (ed - ez))
    by (apply shl_align_value; unfold ez; lia).
  assert (Hb : Z.pos b = Z.pos mt * 2 ^ (et - ez))
    by (apply shl_align_value; unfold ez; lia).
  change (Z.pos a + Z.pos b) with (Z.pos (a + b)).
  cbn [binary_normalize]. unfold binary_round.
  set (M := (a + b)%positive).
  assert (HM : Z.pos M = Z.pos a + Z.pos b) by (unfold M; lia).
  set (D := Z.pos (digits2_pos M)).
  assert (HD1 : 52 + ed - ez < D).
  { apply digits_lower; [unfold ez; lia|]. lia. }
  assert (HD2 : D <= 54 + Z.max ed et - ez).
  { apply digits_upper; [unfold ez; lia|].
    assert (2 ^ (53 + ed - ez) <= 2 ^ (53 + Z.max ed et - ez))
      by (apply Z.pow_le_mono_r; lia).
    assert (2 ^ (53 + et - ez) <= 2 ^ (53 + Z.max ed et - ez))
      by (apply Z.pow_le_mono_r; lia).
    replace (54 + Z.max ed et - ez) with (1 + (53 + Z.max ed et - ez)) by lia.
    rewrite Z.pow_add_r by (unfold ez; lia). change (2 ^ 1) with 2. lia. }
  rewrite fexp_normal by (unfold ez in *; lia).
  rewrite shl_align_id by (unfold ez in *; lia).
  destruct (binary_round_aux_spec M ez) as (m' & e' & q' & -> & Dm' & He' & Hq' & Hv);
    fold D; try (unfold ez in *; lia).
  fold D in He', Hq', Hv.
  pose proof (round_exponent_upper M m' ez e' q') as Hup. fold D in Hup.
  exists m', e'. split; [reflexivity|]. split; [assumption|].
  unfold ez in *. lia.
Qed.

Hypothesis Hlt : et < ed \/ (et = ed /\ Z.pos mt < Z.pos md).

(** Subtracting a smaller positive double leaves a positive finite
    double. *)
Lemma sub_finite :
  exists mz ez,
    Num.sub (S754_finite false md ed) (S754_finite false mt et) =
    S754_finite false mz ez /\
    Z.pos (digits2_pos mz) = 53 /\ ez <= ed + 1.
Proof.
  destruct (aligned_bounds md mt ed et Dd Dt) as [HX HT].
  set (ez := Z.min ed et) in *.
  assert (HTX : Z.pos mt * 2 ^ (et - ez) < Z.pos md * 2 ^ (ed - ez)).
  { apply value_of_lex; try assumption; unfold ez; lia. }
  unfold Num.sub, SFsub. cbn [cond_Zopp]. fold ez.
  set (a := fst (shl_align md ed ez)). set (b := fst (shl_align mt et ez)).
  assert (Ha : Z.pos a = Z.pos md * 2 ^ (ed - ez))
    by (apply shl_align_value; unfold ez; lia).
  assert (Hb : Z.pos b = Z.pos mt * 2 ^ (et - ez))
    by (apply shl_align_value; unfold ez; lia).
  change (Z.pos a - Z.pos b) with (Z.pos_sub a b).
  rewrite Z.pos_sub_gt by lia.
  cbn [binary_normalize]. unfold binary_round.
  set (M := (a - b)%positive).
  assert (HM : Z.pos M = Z.pos a - Z.pos b) by (unfold M; lia).
  set (D := Z.pos (digits2_pos M)).
  assert (HD1 : 0 < D) by (unfold D; lia).
  assert (HD2 : D <= 53 + ed - ez).
  { apply digits_upper; [unfold ez; lia|]. lia. }
  rewrite fexp_normal by (unfold ez in *; lia).
  destruct (Z.le_gt_cases D 53) as [Hsmall|Hbig].
  - destruct (shl_align M ez (D + ez - 53)) as [mz e'] eqn:Hsh.
    assert (He' : e' = D + ez - 53).
    { change e' with (snd (mz, e')). rewrite <- Hsh. apply shl_align_exp. lia. }
    assert (Hmz : Z.pos mz = Z.pos M * 2 ^ (53 - D)).
    { change mz with (fst (mz, e')). rewrite <- Hsh.
      rewrite shl_align_value by lia. f_equal. f_equal. lia. }
    assert (Dmz : Z.pos (digits2_pos mz) = 53).
    { apply digits2_unique. rewrite Hmz.
      pose proof (digits2_bounds M) as HB. fold D in HB.
      assert (E1 : 2 ^ (53 - 1) = 2 ^ (D - 1) * 2 ^ (53 - D))
        by (rewrite <- Z.pow_add_r by lia; f_equal; lia).
      assert (E2 : 2 ^ 53 = 2 ^ D * 2 ^ (53 - D))
        by (rewrite <- Z.pow_add_r by lia; f_equal; lia).
      rewrite E1, E2.
      assert (0 < 2 ^ (53 - D)) by (apply Z.pow_pos_nonneg; lia).
      split.
      - apply Z.mul_le_mono_nonneg_r; lia.
      - apply Z.mul_lt_mono_pos_r; lia. }
    rewrite binary_round_aux_exact by (try assumption; unfold ez in *; lia).
    exists mz, e'. split; [reflexivity|]. split; [assumption|].
    unfold ez in *. lia.
  - rewrite shl_align_id by lia.
    destruct (binary_round_aux_spec M ez) as (m' & e' & q' & -> & Dm' & He' & Hq' & Hv);
      fold D; try (unfold ez in *; lia).
    fold D in He', Hq', Hv.
    pose proof (round_exponent_upper M m' ez e' q') as Hup. fold D in Hup.
    exists m', e'. split; [reflexivity|]. split; [assumption|].
    unfold ez in *. lia.
Qed.

End AddSubShape.

End Shape.

(** * The table lookup *)

Local Open Scope num_scope.

Ltac row_of j H :=
  destruct j as [|[|[|[|[|[|[|[|j]]]]]]]]; cbn [nth_error toleranceTable] in H;
  [ .. | destruct j; discriminate H ];
  injection H as <-.

(** A validated dimension is a positive finite number. *)
Lemma valid_finite (d : number) :
  isValidDimension d = true ->
  exists md ed, d = S754_finite false md ed /\
    (0.5 <= d) = true /\ (d <= 4000) = true.
Proof.
  unfold isValidDimension, Num.ge.
  intros H. apply andb_true_iff in H as [H H2].
  apply andb_true_iff in H as [_ H1].
  destruct d as [s|s| |s md ed]; try discriminate.
  - destruct s; discriminate.
  - destruct s; try discriminate. eauto.
Qed.

(** [find] returns a row whose test holds, and no other row's test holds:
    the scan order does not matter for a validated dimension. *)
Lemma findRange_unique (d : number) :
  isValidDimension d = true ->
  exists i r,
    nth_error toleranceTable i = Some r /\
    findRange d = Some r /\
    inRange d r = true /\
    forall j r', nth_error toleranceTable j = Some r' ->
                 inRange d r' = true -> j = i.
Proof.
  intros Hv. destruct (valid_finite d Hv) as (md & ed & -> & Hlo & Hhi).
  set (x := S754_finite false md ed) in *.
  assert (Hfind : findRange x = find (inRange x) toleranceTable) by reflexivity.
  unfold toleranceTable in Hfind at 1. cbn [find] in Hfind.
  repeat match type of Hfind with
  | context [inRange ?d ?r] =>
      let b := fresh "b" in
      destruct (inRange d r) eqn:b
  end.
  9: { exfalso. clear Hfind. subst x. cbn in *. split_false. }
  all: [> exists 0%nat | exists 1%nat | exists 2%nat | exists 3%nat
        | exists 4%nat | exists 5%nat | exists 6%nat | exists 7%nat ].
  all: eexists; split; [ reflexivity | ];
       split; [ exact Hfind | ]; split; [ assumption | ];
       intros j r' Hj Hin; clear Hfind.
  all: row_of j Hj; try reflexivity; exfalso; try congruence;
       subst x; cbn in *; num2Z; lia.
Qed.

Lemma findRange_iff (d : number) (j : nat) (r : ToleranceRange) :
  isValidDimension d = true ->
  nth_error toleranceTable j = Some r ->
  (findRange d = Some r <-> inRange d r = true).
Proof.
  intros Hv Hj.
  destruct (findRange_unique d Hv) as (i & r0 & Hi & Hf & Hin & Huniq).
  split.
  - intros H. rewrite Hf in H. injection H as <-. assumption.
  - intros H. rewrite (Huniq j r Hj H) in Hj. congruence.
Qed.

Lemma tolerance_found (d : number) (g : ToleranceClass) (r : ToleranceRange) :
  isValidDimension d = true -> findRange d = Some r ->
  tolerance d g = Normal (get (tolerances r) g).
Proof.
  intros Hv Hf. unfold tolerance. rewrite Hv, Hf. reflexivity.
Qed.

Lemma tolerance_invalid (d : number) (g : ToleranceClass) :
  isValidDimension d = false -> tolerance d g = Normal None.
Proof. intros Hv. unfold tolerance. rewrite Hv. reflexivity. Qed.

(** The guard on [range] keeps the property read from throwing. *)
Lemma tolerance_returns (d : number) (g : ToleranceClass) :
  exists t, tolerance d g = Normal t.
Proof.
  unfold tolerance. destruct (isValidDimension d); cbn [negb]; [|eauto].
  destruct (findRange d); cbn [tolerances_of bind]; eauto.
Qed.

Lemma invalid_iff (d : number) :
  isValidDimension d = false <->
  Num.isNaN d = true \/ (d < 0.5) = true \/ (d > 4000) = true.
Proof.
  unfold isValidDimension, Num.ge, Num.gt.
  destruct (Num.isNaN d) eqn:Hn; cbn [negb andb].
  - tauto.
  - rewrite (NumFacts.le_negb_lt 0.5 d), (NumFacts.le_negb_lt d 4000)
      by (assumption || reflexivity).
    destruct (Num.lt d 0.5), (Num.lt 4000 d); cbn; intuition discriminate.
Qed.

(** * Formatting *)

Close Scope num_scope.

Module FormatFacts.

Import Builtins.
Local Open Scope string_scope.

Lemma length_app (a b : string) :
  String.length (a ++ b) = (String.length a + String.length b)%nat.
Proof. induction a as [|ch a IH]; cbn; [reflexivity | now rewrite IH]. Qed.

Lemma length_zeros (n : nat) : String.length (zeros n) = n.
Proof. induction n as [|n IH]; cbn; [reflexivity | now rewrite IH]. Qed.

Lemma length_substring (s : string) :
  forall n k : nat, (n + k <= String.length s)%nat ->
    String.length (substring n k s) = k.
Proof.
  induction s as [|ch s IH]; intros n k H; cbn [String.length] in H.
  - destruct n, k; cbn in *; try reflexivity; lia.
  - destruct n as [|n].
    + destruct k as [|k]; cbn; [reflexivity|].
      rewrite IH by lia. reflexivity.
    + cbn. apply IH. lia.
Qed.

(** With a positive number of fraction digits, [toFixed] writes a decimal
    point followed by exactly that many digits. *)
Lemma fixed_digits_shape (n fd : Z) :
  (0 < fd)%Z ->
  exists a b, fixed_digits n fd = a ++ "." ++ b /\
              String.length b = Z.to_nat fd.
Proof.
  intros Hfd. unfold fixed_digits.
  replace (fd =? 0)%Z with false by (symmetry; apply Z.eqb_neq; lia).
  set (ds := digits_of n). set (fz := Z.to_nat fd).
  set (ds' := if (String.length ds <=? fz)%nat
              then zeros (fz + 1 - String.length ds) ++ ds else ds).
  assert (Hlen : (fz + 1 <= String.length ds')%nat).
  { unfold ds'. destruct (Nat.leb_spec (String.length ds) fz).
    - rewrite length_app, length_zeros. lia.
    - lia. }
  eexists _, _. split; [reflexivity|].
  unfold drop. rewrite length_substring by lia. lia.
Qed.

(** [toFixed(3)] never throws: 3 is within the 0 to 100 range. *)
Lemma toFixed_returns (x : number) : exists s, toFixed 3 x = Normal s.
Proof.
  unfold toFixed. cbn [Z.ltb Z.compare orb].
  destruct x as [s|s| |s mx ex]; try (eexists; reflexivity).
  destruct (cmp_bin_dec (Z.pos mx) ex 1 21); eexists; reflexivity.
Qed.

Lemma round_half_up_nearest (mx ex fd : Z) :
  let N := (mx * pow2 ex * pow10 fd)%Z in
  let D := pow2 (- ex) in
  let n := round_half_up mx ex fd in
  (2 * n * D <= 2 * N + D < 2 * (n + 1) * D)%Z.
Proof.
  intros N D n.
  assert (HD : (0 < D)%Z) by (apply Z.pow_pos_nonneg; lia).
  assert (Hn : n = ((2 * N + D) / (2 * D))%Z).
  { unfold n, round_half_up, N, D. f_equal. lia. }
  pose proof (Z.div_mod (2 * N + D) (2 * D)) as Hdm.
  pose proof (Z.mod_pos_bound (2 * N + D) (2 * D)) as Hmod.
  rewrite <- Hn in Hdm. lia.
Qed.

End FormatFacts.

(** * Parsing *)

Module ParseFacts.

Import Builtins.
Local Open Scope string_scope.

(** A character that can extend a StrDecimalLiteral read so far: a digit,
    the decimal point, an exponent indicator or a sign. *)
Definition extends_literal (ch : ascii) : bool :=
  match digit_in 10 ch with
  | Some _ => true
  | None =>
      Ascii.eqb ch "." || Ascii.eqb ch "e" || Ascii.eqb ch "E" ||
      Ascii.eqb ch "+" || Ascii.eqb ch "-"
  end.

Section Suffix.

Variables (ch : ascii) (rest : string).
Hypothesis Hch : extends_literal ch = false.

Let t := String ch rest.

Lemma not_digit : digit_in 10 ch = None.
Proof.
  unfold extends_literal in Hch. destruct (digit_in 10 ch); [discriminate|reflexivity].
Qed.

Lemma not_marks :
  Ascii.eqb ch "." = false /\ Ascii.eqb ch "e" = false /\
  Ascii.eqb ch "E" = false /\ Ascii.eqb ch "+" = false /\
  Ascii.eqb ch "-" = false.
Proof.
  unfold extends_literal in Hch. rewrite not_digit in Hch.
  repeat (apply orb_false_iff in Hch; destruct Hch as [Hch ?]). auto.
Qed.

Lemma scan_digits_app (s : string) :
  forall acc cnt,
    scan_digits 10 (s ++ t) acc cnt =
    let '(a, n, r) := scan_digits 10 s acc cnt in (a, n, r ++ t).
Proof.
  induction s as [|a s IH]; intros acc cnt; cbn [append scan_digits].
  - unfold t at 1. cbn [scan_digits]. rewrite not_digit. reflexivity.
  - destruct (digit_in 10 a); [apply IH | reflexivity].
Qed.

Lemma scan_sign_app (s : string) :
  scan_sign (s ++ t) = let (neg, r) := scan_sign s in (neg, r ++ t).
Proof.
  destruct not_marks as (_ & _ & _ & Hp & Hm).
  destruct s as [|a s]; cbn [append].
  - unfold t. cbn [scan_sign]. rewrite Hp, Hm. reflexivity.
  - cbn [scan_sign].
    destruct (Ascii.eqb a "+"); [reflexivity|].
    destruct (Ascii.eqb a "-"); reflexivity.
Qed.

Lemma scan_exponent_app (s : string) :
  scan_exponent (s ++ t) = let (x, r) := scan_exponent s in (x, r ++ t).
Proof.
  destruct not_marks as (_ & He & HE & _ & _).
  destruct s as [|a s]; cbn [append].
  - unfold t. cbn [scan_exponent]. rewrite He, HE. reflexivity.
  - cbn [scan_exponent].
    destruct (Ascii.eqb a "e" || Ascii.eqb a "E")%bool; [|reflexivity].
    rewrite scan_sign_app. destruct (scan_sign s) as [neg r1].
    rewrite scan_digits_app.
    destruct (scan_digits 10 r1 0 0) as [[v0 n] r2].
    destruct n; reflexivity.
Qed.

Lemma strip_prefix_app (p : string) :
  forall s r, strip_prefix p s = Some r ->
    strip_prefix p (s ++ t) = Some (r ++ t).
Proof.
  induction p as [|a p IH]; intros s r H.
  - cbn in H |- *. injection H as <-. reflexivity.
  - destruct s as [|b s]; cbn [strip_prefix append] in H |- *; [discriminate|].
    destruct (Ascii.eqb a b); [apply IH; assumption | discriminate].
Qed.

Lemma scan_unsigned_app (s : string) (l : literal) (r : string) :
  scan_unsigned s = Some (l, r) ->
  scan_unsigned (s ++ t) = Some (l, r ++ t).
Proof.
  destruct not_marks as (Hdot & _).
  unfold scan_unsigned.
  destruct (strip_prefix "Infinity" s) as [r0|] eqn:Hinf.
  - intros H. injection H as <- <-.
    rewrite (strip_prefix_app _ _ _ Hinf). reflexivity.
  - destruct s as [|a s]; [discriminate|].
    destruct (Ascii.eqb "I" a) eqn:Ha.
    { apply Ascii.eqb_eq in Ha. subst a. discriminate. }
    replace (strip_prefix "Infinity" (String a s ++ t)) with (@None string)
      by (cbn [append strip_prefix]; rewrite Ha; reflexivity).
    rewrite scan_digits_app.
    destruct (scan_digits 10 (String a s) 0 0) as [[i ni] r1].
    destruct r1 as [|b r1]; cbn [append].
    + unfold t at 1. rewrite Hdot.
      destruct ni; [discriminate|].
      change (scan_exponent t) with (scan_exponent ("" ++ t)).
      rewrite (scan_exponent_app ""). cbn. intros H. injection H as <- <-.
      reflexivity.
    + destruct (Ascii.eqb b ".").
      * rewrite scan_digits_app.
        destruct (scan_digits 10 r1 i 0) as [[m0 nf] r2].
        rewrite scan_exponent_app.
        destruct (scan_exponent r2) as [x r3].
        destruct ni, nf; try discriminate;
          intros H; injection H as <- <-; reflexivity.
      * destruct ni; [discriminate|].
        change (String b (r1 ++ t)) with (String b r1 ++ t).
        rewrite (scan_exponent_app (String b r1)).
        destruct (scan_exponent (String b r1)) as [x r3].
        intros H. injection H as <- <-. reflexivity.
Qed.

Lemma trim_start_app (s : string) :
  trim_start s <> "" -> trim_start (s ++ t) = trim_start s ++ t.
Proof.
  induction s as [|a s IH]; cbn [trim_start append]; intros H.
  - contradiction.
  - destruct (is_white_space a); [apply IH; assumption | reflexivity].
Qed.

(** What follows a literal that [parseFloat] accepts is ignored. *)
Lemma parseFloat_app (s : string) :
  Num.isNaN (parseFloat s) = false ->
  parseFloat (s ++ t) = parseFloat s.
Proof.
  unfold parseFloat. intros H.
  assert (Hne : trim_start s <> "").
  { intros E. rewrite E in H. discriminate H. }
  rewrite (trim_start_app s Hne), scan_sign_app.
  destruct (scan_sign (trim_start s)) as [neg r].
  destruct (scan_unsigned r) as [[l r']|] eqn:Hs; [|discriminate H].
  rewrite (scan_unsigned_app r l r' Hs). reflexivity.
Qed.

End Suffix.

End ParseFacts.

(** * Signs *)

Module SignFacts.

Import Builtins.
Local Open Scope string_scope.

(** [x] is NaN or carries the sign [s]. *)
Definition signed (s : bool) (x : number) : Prop :=
  match x with
  | S754_zero b | S754_infinity b | S754_finite b _ _ => b = s
  | S754_nan => True
  end.

Lemma binary_round_aux_signed (sx : bool) (mx ex : Z) (lx : location) :
  signed sx (binary_round_aux Num.prec Num.emax sx mx ex lx).
Proof.
  unfold binary_round_aux.
  destruct (shr_fexp Num.prec Num.emax mx ex lx) as [r1 e1].
  destruct (shr_fexp Num.prec Num.emax _ e1 loc_Exact) as [r2 e2].
  destruct (shr_m r2); [reflexivity| |exact I].
  destruct (e2 <=? Num.emax - Num.prec)%Z; reflexivity.
Qed.

Lemma of_decimal_signed (neg : bool) (mant : N) (e : Z) :
  signed neg (Num.of_decimal neg mant e).
Proof.
  unfold Num.of_decimal. destruct mant as [|p]; [reflexivity|].
  destruct e as [|k|k].
  - unfold binary_round. destruct (shl_align _ _ _). apply binary_round_aux_signed.
  - unfold binary_round. destruct (shl_align _ _ _). apply binary_round_aux_signed.
  - cbn [SFdiv]. destruct (SFdiv_core_binary _ _ _ _ _ _) as [[mz ez] lz].
    replace (xorb neg false) with neg by (destruct neg; reflexivity).
    apply binary_round_aux_signed.
Qed.

Lemma signed_invalid (x : number) :
  signed true x -> isValidDimension x = false.
Proof.
  destruct x as [b|b| |b mx ex]; cbn [signed]; intros H; subst; reflexivity.
Qed.

Lemma trim_start_blank (s : string) :
  all_white_space s = true -> trim_start s = "".
Proof.
  induction s as [|ch s IH]; cbn [all_white_space trim_start]; [reflexivity|].
  intros H. apply andb_true_iff in H as [H1 H2]. rewrite H1. auto.
Qed.

Lemma parseFloat_blank (s : string) :
  all_white_space s = true -> parseFloat s = Num.NaN.
Proof.
  intros H. unfold parseFloat. rewrite (trim_start_blank s H). reflexivity.
Qed.

Lemma parseFloat_minus (s r : string) :
  trim_start s = String "-" r -> signed true (parseFloat s).
Proof.
  intros H. unfold parseFloat. rewrite H. cbn [scan_sign Ascii.eqb Bool.eqb].
  destruct (scan_unsigned r) as [[[|mant e] r']|]; cbn [literal_value];
    try reflexivity; try exact I.
  apply of_decimal_signed.
Qed.

(** The first character of a decimal numeral is a digit. *)
Definition starts_with_digit (s : string) : Prop :=
  match s with
  | String ch _ => digit_in 10 ch <> None
  | EmptyString => False
  end.

Lemma digits_of_head (n : Z) : starts_with_digit (digits_of n).
Proof.
  unfold digits_of, NilZero.string_of_uint.
  destruct (N.to_uint (Z.to_N n)); cbn; discriminate.
Qed.

Lemma starts_with_digit_app (a b : string) :
  starts_with_digit a -> starts_with_digit (a ++ b).
Proof. destruct a; cbn; [contradiction|auto]. Qed.

Lemma starts_with_digit_take (n : nat) (a : string) :
  starts_with_digit a -> (0 < n)%nat -> starts_with_digit (take n a).
Proof.
  destruct a as [|ch a]; cbn; [contradiction|]. intros H Hn.
  destruct n; [lia|]. exact H.
Qed.

Lemma format_digits_head (s k n : Z) : starts_with_digit (format_digits s k n).
Proof.
  unfold format_digits. pose proof (digits_of_head s) as H.
  destruct ((-5 <=? n)%Z && (n <=? 21)%Z).
  - destruct (Z.leb_spec k n); [apply starts_with_digit_app; assumption|].
    destruct (Z.ltb_spec 0 n).
    + apply starts_with_digit_app, starts_with_digit_take; [assumption|lia].
    + cbn. discriminate.
  - destruct (k =? 1)%Z; [apply starts_with_digit_app; assumption|].
    apply starts_with_digit_app, starts_with_digit_take; [assumption|lia].
Qed.

(** No number prints as a lone minus sign. *)
Lemma toString_not_dash (x : number) : toString x <> "-".
Proof.
  destruct x as [b|b| |b mx ex]; cbn [toString]; try discriminate.
  - destruct b; discriminate.
  - destruct (shortest 17 mx ex _ 1) as [[s k] n'].
    pose proof (format_digits_head s k n') as H.
    destruct (format_digits s k n') as [|ch r]; [contradiction|].
    destruct b; cbn [append]; [discriminate|].
    intros E. injection E as -> _. apply H. reflexivity.
Qed.

End SignFacts.

(** * Reading formatted numbers back *)

Module ReadBack.

Import Builtins.
Local Open Scope string_scope.

Definition is_digit (ch : ascii) : bool :=
  match digit_in 10 ch with Some _ => true | None => false end.

Fixpoint all_digits (s : string) : bool :=
  match s with
  | String ch r => is_digit ch && all_digits r
  | EmptyString => true
  end.

(** What a decimal digit is not. *)
Lemma digit_facts (ch : ascii) :
  is_digit ch = true ->
  is_white_space ch = false /\
  Ascii.eqb ch "+" = false /\ Ascii.eqb ch "-" = false /\
  Ascii.eqb ch "." = false /\ Ascii.eqb "I" ch = false /\
  Ascii.eqb ch "x" = false /\ Ascii.eqb ch "X" = false /\
  Ascii.eqb ch "o" = false /\ Ascii.eqb ch "O" = false /\
  Ascii.eqb ch "b" = false /\ Ascii.eqb ch "B" = false.
Proof.
  destruct ch as [[] [] [] [] [] [] [] []]; cbn; intros H;
    try discriminate H; repeat split; reflexivity.
Qed.

Lemma all_digits_app (a b : string) :
  all_digits (a ++ b) = all_digits a && all_digits b.
Proof.
  induction a as [|ch a IH]; cbn [append all_digits]; [reflexivity|].
  rewrite IH. apply andb_assoc.
Qed.

Lemma all_digits_zeros (n : nat) : all_digits (zeros n) = true.
Proof. induction n; cbn; auto. Qed.

Lemma all_digits_substring (s : string) :
  all_digits s = true -> forall n k, all_digits (substring n k s) = true.
Proof.
  induction s as [|ch s IH]; intros H n k.
  - destruct n, k; reflexivity.
  - cbn [all_digits] in H. apply andb_true_iff in H as [H1 H2].
    destruct n as [|n].
    + destruct k as [|k]; [reflexivity|]. cbn [substring all_digits].
      rewrite H1. apply IH. assumption.
    + cbn [substring]. apply IH. assumption.
Qed.

Lemma all_digits_uint (d : Decimal.uint) :
  all_digits (NilEmpty.string_of_uint d) = true.
Proof. induction d; cbn; auto. Qed.

Lemma all_digits_digits_of (n : Z) : all_digits (digits_of n) = true.
Proof.
  unfold digits_of, NilZero.string_of_uint.
  destruct (N.to_uint (Z.to_N n)) eqn:E; try reflexivity;
    rewrite <- E; apply all_digits_uint.
Qed.

(** A run of digits is read to its end. *)
Lemma scan_digits_run (a : string) :
  all_digits a = true ->
  forall rest acc cnt,
    match rest with String ch _ => is_digit ch = false | EmptyString => True end ->
    exists acc',
      scan_digits 10 (a ++ rest) acc cnt = (acc', (cnt + String.length a)%nat, rest).
Proof.
  induction a as [|ch a IH]; intros H rest acc cnt Hr.
  - exists acc. cbn [append String.length]. rewrite Nat.add_0_r.
    destruct rest as [|ch r]; [reflexivity|].
    cbn [scan_digits]. unfold is_digit in Hr.
    destruct (digit_in 10 ch); [discriminate|reflexivity].
  - cbn [all_digits] in H. apply andb_true_iff in H as [H1 H2].
    cbn [append scan_digits String.length]. unfold is_digit in H1.
    destruct (digit_in 10 ch) as [dg|]; [|discriminate].
    destruct (IH H2 rest (10 * acc + dg)%N (S cnt) Hr) as [acc' E].
    exists acc'. rewrite E. f_equal. f_equal. lia.
Qed.

(** Digits, a point, digits: [Number] reads the whole string, with or
    without a minus sign in front. *)
Lemma StringToNumber_fixed (neg : bool) (a b : string) :
  all_digits a = true -> all_digits b = true -> a <> "" ->
  exists mant,
    StringToNumber ((if neg then "-" else "") ++ a ++ "." ++ b) =
    Num.of_decimal neg mant (0 - Z.of_nat (String.length b)).
Proof.
  intros Ha Hb Hne.
  destruct a as [|ch a]; [contradiction|].
  pose proof Ha as Ha'. cbn [all_digits] in Ha'.
  apply andb_true_iff in Ha' as [Hch Ha'].
  destruct (digit_facts ch Hch)
    as (Hws & Hp & Hm & Hdot & HI & Hx & HX & Ho & HO & Hb' & HB).
  assert (Hscan : exists mant,
            scan_unsigned (String ch a ++ "." ++ b) =
            Some (LitDecimal mant (0 - Z.of_nat (String.length b)), "")).
  { unfold scan_unsigned.
    replace (strip_prefix "Infinity" (String ch a ++ "." ++ b)) with (@None string)
      by (cbn [append strip_prefix]; rewrite HI; reflexivity).
    destruct (scan_digits_run (String ch a) Ha ("." ++ b) 0%N O) as [i Ei];
      [reflexivity|].
    rewrite Ei. cbn [append]. cbn [Ascii.eqb Bool.eqb].
    destruct (scan_digits_run b Hb "" i O) as [mant Em]; [exact I|].
    assert (Eb : b ++ "" = b) by (clear; induction b; cbn; congruence).
    rewrite Eb in Em. rewrite Em.
    cbn [Nat.add String.length scan_exponent].
    exists mant. destruct (String.length b); reflexivity. }
  destruct Hscan as [mant Hscan]. exists mant.
  unfold StringToNumber. destruct neg; cbn [append].
  - cbn [trim_start is_white_space N_of_ascii]. cbn.
    change (String ch (a ++ String "." b)) with (String ch a ++ "." ++ b).
    rewrite Hscan. reflexivity.
  - cbn [trim_start]. rewrite Hws. cbn [all_white_space]. rewrite Hws.
    cbn [andb].
    assert (Hrad : scan_radix_literal (String ch (a ++ String "." b)) = None).
    { destruct (a ++ String "." b) as [|c2 r] eqn:E.
      - destruct ch as [[] [] [] [] [] [] [] []]; reflexivity.
      - assert (Hc2 : is_digit c2 = true \/ c2 = "."%char).
        { destruct a as [|c3 a3]; cbn [append] in E; injection E as <- _.
          - right. reflexivity.
          - left. cbn [all_digits] in Ha'.
            apply andb_true_iff in Ha' as [H3 _]. exact H3. }
        assert (Hno : (Ascii.eqb c2 "x" || Ascii.eqb c2 "X")%bool = false /\
                      (Ascii.eqb c2 "o" || Ascii.eqb c2 "O")%bool = false /\
                      (Ascii.eqb c2 "b" || Ascii.eqb c2 "B")%bool = false).
        { destruct Hc2 as [Hd| ->]; [|repeat split; reflexivity].
          destruct (digit_facts c2 Hd)
            as (_ & _ & _ & _ & _ & H1 & H2 & H3 & H4 & H5 & H6).
          rewrite H1, H2, H3, H4, H5, H6. repeat split; reflexivity. }
        destruct Hno as (N1 & N2 & N3).
        destruct ch as [[] [] [] [] [] [] [] []]; try reflexivity.
        cbn [scan_radix_literal]. rewrite N1, N2, N3. reflexivity. }
    rewrite Hrad. cbn [scan_sign]. rewrite Hp, Hm.
    change (String ch (a ++ String "." b)) with (String ch a ++ "." ++ b).
    rewrite Hscan. reflexivity.
Qed.

Lemma fixed_digits_parts (n fd : Z) :
  (0 < fd)%Z ->
  exists a b, fixed_digits n fd = a ++ "." ++ b /\
              all_digits a = true /\ all_digits b = true /\ a <> "" /\
              String.length b = Z.to_nat fd.
Proof.
  intros Hfd. unfold fixed_digits.
  replace (fd =? 0)%Z with false by (symmetry; apply Z.eqb_neq; lia).
  set (ds := digits_of n). set (fz := Z.to_nat fd).
  set (ds' := if (String.length ds <=? fz)%nat
              then zeros (fz + 1 - String.length ds) ++ ds else ds).
  assert (Hlen : (fz + 1 <= String.length ds')%nat).
  { unfold ds'. destruct (Nat.leb_spec (String.length ds) fz).
    - rewrite FormatFacts.length_app, FormatFacts.length_zeros. lia.
    - lia. }
  assert (Hall : all_digits ds' = true).
  { unfold ds'. destruct (String.length ds <=? fz)%nat.
    - rewrite all_digits_app, all_digits_zeros. apply all_digits_digits_of.
    - apply all_digits_digits_of. }
  eexists _, _. split; [reflexivity|].
  split; [apply all_digits_substring; assumption|].
  split; [apply all_digits_substring; assumption|].
  split.
  - intros E. apply (f_equal String.length) in E. unfold take in E.
    rewrite FormatFacts.length_substring in E by lia. cbn in E. lia.
  - unfold drop. rewrite FormatFacts.length_substring by lia. lia.
Qed.

(** Rounding a non-negative integer never yields NaN. *)
Lemma shr_fexp_nonneg (x e : Z) (l : location) :
  (0 <= x)%Z -> (0 <= shr_m (fst (shr_fexp Num.prec Num.emax x e l)))%Z.
Proof.
  intros Hx. unfold shr_fexp, shr.
  destruct (fexp Num.prec Num.emax (Zdigits2 x + e) - e)%Z as [|p|p];
    cbn [fst]; rewrite ?Validity.shr_record_of_loc_m; try assumption.
  rewrite Rounding.iter_shr_1 by (rewrite Validity.shr_record_of_loc_m; lia).
  rewrite Validity.shr_record_of_loc_m.
  apply Z.div_pos; [assumption | apply Z.pow_pos_nonneg; lia].
Qed.

Lemma binary_round_aux_number (sx : bool) (mx ex : Z) (lx : location) :
  (0 <= mx)%Z ->
  Num.isNaN (binary_round_aux Num.prec Num.emax sx mx ex lx) = false.
Proof.
  intros Hmx. unfold binary_round_aux.
  pose proof (shr_fexp_nonneg mx ex lx Hmx) as H1.
  destruct (shr_fexp Num.prec Num.emax mx ex lx) as [r1 e1]. cbn [fst] in H1.
  set (m2 := round_nearest_even (shr_m r1) (loc_of_shr_record r1)).
  assert (H2 : (0 <= m2)%Z).
  { destruct (Rounding.round_nearest_even_cases (shr_m r1) (loc_of_shr_record r1))
      as [E|E]; fold m2 in E; lia. }
  pose proof (shr_fexp_nonneg m2 e1 loc_Exact H2) as H3.
  destruct (shr_fexp Num.prec Num.emax m2 e1 loc_Exact) as [r2 e2].
  cbn [fst] in H3.
  destruct (shr_m r2) as [|p|p]; [reflexivity| |lia].
  destruct (e2 <=? Num.emax - Num.prec)%Z; reflexivity.
Qed.

Lemma of_decimal_number (neg : bool) (mant : N) (e : Z) :
  Num.isNaN (Num.of_decimal neg mant e) = false.
Proof.
  unfold Num.of_decimal. destruct mant as [|p]; [reflexivity|].
  destruct e as [|k|k].
  - unfold binary_round. destruct (shl_align _ _ _).
    apply binary_round_aux_number. lia.
  - unfold binary_round. destruct (shl_align _ _ _).
    apply binary_round_aux_number. lia.
  - cbn [SFdiv]. unfold SFdiv_core_binary.
    match goal with
    | |- context [Z.div_eucl ?a ?b] =>
        pose proof (Z_div_mod a b eq_refl) as Hdm;
        assert (Ha : (0 <= a)%Z);
        [| destruct (Z.div_eucl a b) as [q r] ]
    end.
    { match goal with
      | |- (0 <= match ?s with _ => _ end)%Z => destruct s
      end; try lia. rewrite Z.shiftl_mul_pow2 by lia.
      apply Z.mul_nonneg_nonneg; [lia|]. apply Z.pow_nonneg. lia. }
    apply binary_round_aux_number. nia.
Qed.

(** [x.toFixed(3)], for a finite [x] below 10^21 in magnitude, is a
    string [Number] reads as a number of the same sign. *)
Lemma toFixed_reads_back (neg : bool) (mx : positive) (ex : Z) :
  cmp_bin_dec (Z.pos mx) ex 1 21 = Lt ->
  exists s, toFixed 3 (S754_finite neg mx ex) = Normal s /\
            Num.isNaN (StringToNumber s) = false /\
            SignFacts.signed neg (StringToNumber s).
Proof.
  intros Hlt. unfold toFixed. cbn [Z.ltb Z.compare orb]. rewrite Hlt.
  destruct (fixed_digits_parts (round_half_up (Z.pos mx) ex 3) 3)
    as (a & b & -> & Ha & Hb & Hne & _); [lia|].
  eexists. split; [reflexivity|].
  destruct (StringToNumber_fixed neg a b Ha Hb Hne) as [mant ->].
  split; [apply of_decimal_number | apply SignFacts.of_decimal_signed].
Qed.

(** How a number that is neither NaN nor negative prints. *)
Lemma toString_unsigned (x : number) :
  Num.isNaN x = false -> SignFacts.signed false x ->
  toString x <> "NaN" /\ forall r, toString x <> String "-" r.
Proof.
  destruct x as [b|b| |b mx ex]; cbn [Num.isNaN SignFacts.signed toString];
    intros Hn Hs; try discriminate Hn; subst.
  - split; [discriminate|]. intros r. discriminate.
  - split; [discriminate|]. intros r. discriminate.
  - destruct (shortest 17 mx ex _ 1) as [[s k] n'].
    pose proof (SignFacts.format_digits_head s k n') as H.
    destruct (format_digits s k n') as [|ch r]; [contradiction|].
    cbn [append SignFacts.starts_with_digit] in *.
    split; intros; intros E; injection E; intros; subst; apply H; reflexivity.
Qed.

(** A 53-bit significand with a non-positive exponent is below 10^21. *)
Lemma below_1e21 (mx : positive) (ex : Z) :
  Z.pos (digits2_pos mx) = 53%Z -> (ex <= 0)%Z ->
  cmp_bin_dec (Z.pos mx) ex 1 21 = Lt.
Proof.
  intros Dm He. unfold cmp_bin_dec, pow2, pow10.
  pose proof (Rounding.digits2_bounds mx) as HB. rewrite Dm in HB.
  replace (Z.max 0 ex) with 0%Z by lia.
  replace (Z.max 0 (- ex)) with (- ex)%Z by lia.
  change (Z.max 0 (- (21))) with 0%Z. change (Z.max 0 21) with 21%Z.
  apply Z.compare_lt_iff.
  assert (H1 : (1 <= 2 ^ (- ex))%Z) by (apply Z.lt_pred_le, Z.pow_pos_nonneg; lia).
  assert (H2 : (2 ^ 53 < 10 ^ 21)%Z) by reflexivity.
  change (2 ^ 0)%Z with 1%Z. change (10 ^ 0)%Z with 1%Z.
  assert (H3 : (10 ^ 21 * 1 <= 10 ^ 21 * 2 ^ (- ex))%Z)
    by (apply Z.mul_le_mono_nonneg_l; lia).
  lia.
Qed.

End ReadBack.

Local Open Scope num_scope.

Lemma formatNumber_returns (num : option number) :
  exists s, formatNumber num = Normal s.
Proof.
  destruct num as [x|]; cbn [formatNumber]; [|eauto].
  destruct (FormatFacts.toFixed_returns x) as [s ->]. cbn [bind]. eauto.
Qed.

(** What [App] returns, by the three cases of its result pane. *)
Lemma App_cases (dimensionStr : string) (tolClass : ToleranceClass) :
  let d := Builtins.parseFloat dimensionStr in
  exists view, App dimensionStr tolClass = Normal view /\
    ((isValidDimension d = false /\ tolerance d tolClass = Normal None /\
      result view = ShowMessage EnterValidDimension) \/
     (isValidDimension d = true /\ tolerance d tolClass = Normal None /\
      result view = ShowMessage NotSpecified) \/
     (isValidDimension d = true /\
      exists t st su sl,
        tolerance d tolClass = Normal (Some t) /\
        formatNumber (Some t) = Normal st /\
        formatNumber (upperLimit d (Some t)) = Normal su /\
        formatNumber (lowerLimit d (Some t)) = Normal sl /\
        result view = ShowValues st su sl)).
Proof.
  intros d. unfold App. fold d.
  destruct (isValidDimension d) eqn:Hv.
  - destruct (tolerance_returns d tolClass) as [[t|] Ht]; rewrite Ht; cbn [bind].
    + destruct (formatNumber_returns (Some t)) as [st Hst].
      destruct (formatNumber_returns (upperLimit d (Some t))) as [su Hsu].
      destruct (formatNumber_returns (lowerLimit d (Some t))) as [sl Hsl].
      rewrite Hst, Hsu, Hsl. cbn [bind].
      eexists. split; [reflexivity|]. right. right.
      split; [reflexivity|]. exists t, st, su, sl. cbn [result]. auto.
    + eexists. split; [reflexivity|]. right. left. cbn [result]. auto.
  - rewrite (tolerance_invalid d tolClass Hv). cbn [bind].
    eexists. split; [reflexivity|]. left. cbn [result]. auto.
Qed.

(** * The claims *)

(** C1.  For a validated dimension, [find] returns the first row exactly
    when [0.5 <= d <= 3] (closed at both ends) and a later row exactly when
    [min < d <= max] (open below, closed above).  In particular 3 is found
    in the row [0.5, 3] and 3.0001 in the row (3, 6]. *)
Theorem C1_lookup_intervals (d : number) :
  isValidDimension d = true ->
  (forall r, nth_error toleranceTable 0 = Some r ->
     (findRange d = Some r <-> (0.5 <= d) = true /\ (d <= 3) = true)) /\
  (forall i r, nth_error toleranceTable (S i) = Some r ->
     (findRange d = Some r <-> (min r < d) = true /\ (d <= max r) = true)) /\
  findRange 3 = nth_error toleranceTable 0 /\
  findRange 3.0001 = nth_error toleranceTable 1 /\
  (exists r0 r1,
     nth_error toleranceTable 0 = Some r0 /\
     nth_error toleranceTable 1 = Some r1 /\
     min r0 = 0.5 /\ max r0 = 3 /\ min r1 = 3 /\ max r1 = 6 /\
     inRange 3 r0 = true /\ inRange 3 r1 = false /\
     inRange 3.0001 r0 = false /\ inRange 3.0001 r1 = true).
Proof.
  intros Hv. split; [|split; [|split; [|split]]].
  - intros r Hr. rewrite (findRange_iff d 0 r Hv Hr).
    injection Hr as <-. cbn. apply andb_true_iff.
  - intros i r Hr. rewrite (findRange_iff d (S i) r Hv Hr).
    set (j := S i) in Hr. assert (Hj : j <> 0%nat) by (unfold j; lia).
    clearbody j. row_of j Hr; try (exfalso; apply Hj; reflexivity);
      cbn; apply andb_true_iff.
  - vm_compute. reflexivity.
  - vm_compute. reflexivity.
  - eexists _, _. repeat split; reflexivity.
Qed.

Lemma C1_lookup_intervals_witness :
  (forall r, nth_error toleranceTable 0 = Some r ->
     (findRange 3 = Some r <-> (0.5 <= 3) = true /\ (3 <= 3) = true)) /\
  (forall i r, nth_error toleranceTable (S i) = Some r ->
     (findRange 3 = Some r <-> (min r < 3) = true /\ (3 <= max r) = true)).
Proof.
  pose proof (C1_lookup_intervals 3 eq_refl) as H.
  split; [exact (proj1 H) | exact (proj1 (proj2 H))].
Defined.

(** The strict bracket, on numbers: used for C2 and again for every
    input string. *)
Lemma limits_bracket (d : number) (g : ToleranceClass) (t : number) :
  Num.is_double d = true ->
  isValidDimension d = true ->
  tolerance d g = Normal (Some t) ->
  (0 < t) = true /\ (d - t < d) = true /\ (d < d + t) = true.
Proof.
  intros Hd Hv Ht.
  destruct (findRange_unique d Hv) as (i & r & Hi & Hf & Hin & _).
  rewrite (tolerance_found d g r Hv Hf) in Ht.
  destruct (valid_finite d Hv) as (md & ed & -> & Hlo & _).
  assert (Dd : Z.pos (digits2_pos md) = 53%Z).
  { apply (NumFacts.double_digits false md ed Hd). num2Z. lia. }
  clear Hd Hv Hf.
  row_of i Hi; destruct g; cbn in Ht; try discriminate Ht;
    injection Ht as <-; cbn in Hin; num2Z.
  all: split; [reflexivity|]; split;
    [ apply Rounding.sub_lt; [assumption | reflexivity | lia | lia | lia | lia]
    | apply Rounding.add_gt; [assumption | reflexivity | lia | lia | lia] ].
Qed.

(** C2.  For a double [d] in [0.5, 4000] and a class the table gives a
    value for, the tolerance is strictly positive and the limits computed
    in binary64 arithmetic satisfy [lowerLimit < d < upperLimit]. *)
Theorem C2_tolerance_positive_limits_strict
    (d : number) (g : ToleranceClass) (t : number) :
  Num.is_double d = true ->
  isValidDimension d = true ->
  tolerance d g = Normal (Some t) ->
  (0 < t) = true /\
  exists lo hi,
    lowerLimit d (Some t) = Some lo /\ upperLimit d (Some t) = Some hi /\
    (lo < d) = true /\ (d < hi) = true.
Proof.
  intros Hd Hv Ht.
  destruct (limits_bracket d g t Hd Hv Ht) as (Hpos & Hlo & Hhi).
  split; [assumption|].
  exists (d - t), (d + t). cbn [lowerLimit upperLimit]. auto.
Qed.

Lemma C2_tolerance_positive_limits_strict_witness :
  (0 < 0.2) = true /\
  exists lo hi,
    lowerLimit 10 (Some 0.2) = Some lo /\ upperLimit 10 (Some 0.2) = Some hi /\
    (lo < 10) = true /\ (10 < hi) = true.
Proof.
  apply (C2_tolerance_positive_limits_strict 10 m 0.2); reflexivity.
Defined.

(** C3.  Validation fails exactly when [parseFloat] gives NaN, or a value
    below 0.5, or a value above 4000.  The input 0.4 is invalid; the input
    4000 is valid and is found in the row (2000, 4000]. *)
Theorem C3_validation_fails_exactly :
  (forall dimensionStr : string,
     let dimension := Builtins.parseFloat dimensionStr in
     isValidDimension dimension = false <->
     Num.isNaN dimension = true \/ (dimension < 0.5) = true \/
     (dimension > 4000) = true) /\
  isValidDimension (Builtins.parseFloat "0.4") = false /\
  (forall g, exists view, App "0.4" g = Normal view /\
             result view = ShowMessage EnterValidDimension) /\
  isValidDimension (Builtins.parseFloat "4000") = true /\
  findRange (Builtins.parseFloat "4000") = nth_error toleranceTable 7 /\
  (exists r, nth_error toleranceTable 7 = Some r /\
             min r = 2000 /\ max r = 4000).
Proof.
  split; [|split; [|split; [|split; [|split]]]].
  - intros s. apply invalid_iff.
  - vm_compute. reflexivity.
  - intros g. eexists. destruct g; split; vm_compute; reflexivity.
  - vm_compute. reflexivity.
  - vm_compute. reflexivity.
  - eexists. repeat split; reflexivity.
Qed.

(** C4.  The rows are contiguous (each [max] is the next [min], from 0.5
    to 4000), no validated dimension satisfies the test of two rows, and
    the lookup of a validated dimension always finds a row: the
    [if (!range) return null] branch is not taken. *)
Theorem C4_table_covers_domain (d : number) :
  isValidDimension d = true ->
  (exists r, findRange d = Some r /\ In r toleranceTable /\
             inRange d r = true) /\
  (forall i j ri rj,
     nth_error toleranceTable i = Some ri ->
     nth_error toleranceTable j = Some rj ->
     inRange d ri = true -> inRange d rj = true -> i = j) /\
  (exists r0, hd_error toleranceTable = Some r0 /\ min r0 = 0.5) /\
  (exists rn, nth_error toleranceTable (List.length toleranceTable - 1) = Some rn /\
              max rn = 4000) /\
  (forall i r r',
     nth_error toleranceTable i = Some r ->
     nth_error toleranceTable (S i) = Some r' -> max r = min r') /\
  (forall r, In r toleranceTable -> (min r < max r) = true).
Proof.
  intros Hv.
  destruct (findRange_unique d Hv) as (k & r & Hk & Hf & Hin & Huniq).
  split; [|split; [|split; [|split; [|split]]]].
  - exists r. split; [assumption|]. split; [|assumption].
    apply (nth_error_In _ _ Hk).
  - intros i j ri rj Hi Hj Hri Hrj.
    rewrite (Huniq i ri Hi Hri), (Huniq j rj Hj Hrj). reflexivity.
  - eexists. split; reflexivity.
  - eexists. split; reflexivity.
  - intros i r1 r2 H1 H2.
    destruct i as [|[|[|[|[|[|[|[|i]]]]]]]]; cbn in H1, H2;
      try (destruct i; discriminate H2);
      injection H1 as <-; try discriminate H2; injection H2 as <-; reflexivity.
  - intros r0 H0. cbn in H0.
    repeat (destruct H0 as [<-|H0]; [reflexivity|]). contradiction.
Qed.

Lemma C4_table_covers_domain_witness :
  exists r, findRange 4000 = Some r /\ In r toleranceTable /\
            inRange 4000 r = true.
Proof.
  exact (proj1 (C4_table_covers_domain 4000 eq_refl)).
Defined.

(** C5, the claim as stated fails at [d = 3]: the dimension is valid and
    not below 3, yet class [v] has no tolerance there, because the first
    row is closed at 3. *)
Lemma C5_closed_at_three_counterexample :
  isValidDimension 3 = true /\ tolerance 3 v = Normal None /\
  (3 < 3) = false.
Proof. repeat split; vm_compute; reflexivity. Qed.

(** C5, amended.  For a validated dimension, class [v] has no tolerance
    exactly when [d <= 3], and class [f] has none exactly when
    [d > 2000]; dimension 3000 with class [f] has none. *)
Theorem C5_unspecified_grades (d : number) :
  isValidDimension d = true ->
  (tolerance d v = Normal None <-> (d <= 3) = true) /\
  (tolerance d f = Normal None <-> (d > 2000) = true) /\
  isValidDimension 3000 = true /\ tolerance 3000 f = Normal None.
Proof.
  intros Hv.
  destruct (findRange_unique d Hv) as (i & r & Hi & Hf & Hin & _).
  rewrite !(tolerance_found d _ r Hv Hf).
  destruct (valid_finite d Hv) as (md & ed & -> & Hlo & Hhi).
  clear Hv Hf.
  split; [|split; [|split; vm_compute; reflexivity]].
  - row_of i Hi; cbn in Hin |- *; num2Z; split; intros Hx;
      try reflexivity; try discriminate Hx;
      try (apply NumFacts.le_fin; lia);
      exfalso; num2Z; lia.
  - unfold Num.gt. row_of i Hi; cbn in Hin |- *; num2Z; split; intros Hx;
      try reflexivity; try discriminate Hx;
      try (apply NumFacts.lt_fin; lia);
      exfalso; num2Z; lia.
Qed.

Lemma C5_unspecified_grades_witness :
  (tolerance 3 v = Normal None <-> (3 <= 3) = true) /\
  (tolerance 3 f = Normal None <-> (3 > 2000) = true).
Proof.
  pose proof (C5_unspecified_grades 3 eq_refl) as H.
  split; [exact (proj1 H) | exact (proj1 (proj2 H))].
Defined.

(** C6.  The limits are [d + t] and [d - t] as the engine computes them,
    with no rounding to three decimals at this stage (3.2 - 0.3 stays
    2.9000000000000004); with no tolerance both limits are absent, and the
    pane then shows a message, never a number. *)
Theorem C6_limits_exact_and_propagate :
  (forall d t : number,
     upperLimit d (Some t) = Some (d + t) /\
     lowerLimit d (Some t) = Some (d - t)) /\
  (forall d : number, upperLimit d None = None /\ lowerLimit d None = None) /\
  lowerLimit 3.2 (Some 0.3) = Some 2.9000000000000004 /\
  upperLimit 0.7 (Some 0.1) = Some 0.7999999999999999 /\
  (forall dimensionStr tolClass view,
     App dimensionStr tolClass = Normal view ->
     tolerance (Builtins.parseFloat dimensionStr) tolClass = Normal None ->
     exists msg, result view = ShowMessage msg).
Proof.
  split; [|split; [|split; [|split]]].
  - intros d t. split; reflexivity.
  - intros d. split; reflexivity.
  - vm_compute. reflexivity.
  - vm_compute. reflexivity.
  - intros s g view HA Ht.
    destruct (App_cases s g) as (view' & HA' & Hc).
    rewrite HA in HA'. injection HA' as <-.
    destruct Hc as [(_ & _ & ->)|[(_ & _ & ->)|(_ & t & st & su & sl & Ht' & _)]];
      eauto.
    rewrite Ht in Ht'. discriminate Ht'.
Qed.

(** C7.  Dimension 10 with class [m] is found in the row (6, 30]; the
    tolerance is 0.2, the upper limit 10.2 and the lower limit 9.8. *)
Theorem C7_ten_medium :
  findRange 10 = nth_error toleranceTable 2 /\
  (exists r, nth_error toleranceTable 2 = Some r /\ min r = 6 /\ max r = 30 /\
             get (tolerances r) m = Some 0.2) /\
  tolerance 10 m = Normal (Some 0.2) /\
  upperLimit 10 (Some 0.2) = Some 10.2 /\
  lowerLimit 10 (Some 0.2) = Some 9.8 /\
  App "10" m =
    Normal {| validationError := false;
              result := ShowValues "0.2" "10.2" "9.8" |}.
Proof.
  split; [|split; [|split; [|split; [|split]]]].
  1,3-6: vm_compute; reflexivity.
  eexists. repeat split; reflexivity.
Qed.

(** C8.  For every input string and class the component returns
    normally, and what it shows is exactly one of: the invalid-dimension
    message (validation failed), the not-specified message (validation
    passed, the table has no value), or the three values.  The two
    messages are distinct. *)
Theorem C8_three_outcomes_no_throw
    (dimensionStr : string) (tolClass : ToleranceClass) :
  let d := Builtins.parseFloat dimensionStr in
  (exists view, App dimensionStr tolClass = Normal view /\
    ((isValidDimension d = false /\ tolerance d tolClass = Normal None /\
      result view = ShowMessage EnterValidDimension) \/
     (isValidDimension d = true /\ tolerance d tolClass = Normal None /\
      result view = ShowMessage NotSpecified) \/
     (isValidDimension d = true /\
      exists t st su sl,
        tolerance d tolClass = Normal (Some t) /\
        result view = ShowValues st su sl))) /\
  ShowMessage EnterValidDimension <> ShowMessage NotSpecified /\
  (forall st su sl msg, ShowValues st su sl <> ShowMessage msg).
Proof.
  intros d. split; [|split].
  - destruct (App_cases dimensionStr tolClass) as (view & HA & Hc).
    exists view. split; [assumption|]. fold d in Hc.
    destruct Hc as [H|[H|(Hv & t & st & su & sl & Ht & _ & _ & _ & Hr)]];
      [left; assumption | right; left; assumption | right; right].
    split; [assumption|]. exists t, st, su, sl. auto.
  - discriminate.
  - discriminate.
Qed.

(** C9.  Every displayed number is [toFixed(3)] of the value, read back
    by [Number] and printed by [toString]: [toFixed(3)] picks the nearest
    multiple of 1/1000 and writes three fraction digits, and the read-back
    drops what the binary representation added.  The limit
    2.9000000000000004 is displayed as 2.9. *)
Theorem C9_format_three_decimals :
  (forall x : number, exists s,
     Builtins.toFixed 3 x = Normal s /\
     formatNumber (Some x) =
       Normal (Builtins.toString (Builtins.StringToNumber s))) /\
  (forall neg mx ex,
     Builtins.cmp_bin_dec (Z.pos mx) ex 1 21 = Lt ->
     let n := Builtins.round_half_up (Z.pos mx) ex 3 in
     (2 * n * Builtins.pow2 (- ex) <=
        2 * (Z.pos mx * Builtins.pow2 ex * 1000) + Builtins.pow2 (- ex) <
        2 * (n + 1) * Builtins.pow2 (- ex))%Z /\
     exists a b,
       Builtins.fixed_digits n 3 = (a ++ "." ++ b)%string /\
       String.length b = 3%nat /\
       Builtins.toFixed 3 (S754_finite neg mx ex) =
         Normal ((if neg then "-" else "") ++ a ++ "." ++ b)%string) /\
  Builtins.toString 2.9000000000000004 = "2.9000000000000004"%string /\
  Builtins.toFixed 3 2.9000000000000004 = Normal "2.900"%string /\
  Builtins.StringToNumber "2.900" = 2.9 /\
  formatNumber (Some 2.9000000000000004) = Normal "2.9"%string /\
  lowerLimit 3.2 (Some 0.3) = Some 2.9000000000000004 /\
  App "3.2" c =
    Normal {| validationError := false;
              result := ShowValues "0.3" "3.5" "2.9" |} /\
  (forall dimensionStr tolClass view st su sl,
     App dimensionStr tolClass = Normal view ->
     result view = ShowValues st su sl ->
     let d := Builtins.parseFloat dimensionStr in
     exists t,
       tolerance d tolClass = Normal (Some t) /\
       formatNumber (Some t) = Normal st /\
       formatNumber (upperLimit d (Some t)) = Normal su /\
       formatNumber (lowerLimit d (Some t)) = Normal sl).
Proof.
  split; [|split; [|split; [|split; [|split; [|split; [|split; [|split]]]]]]].
  3-8: vm_compute; reflexivity.
  - intros x. destruct (FormatFacts.toFixed_returns x) as [s Hs].
    exists s. split; [assumption|]. cbn [formatNumber]. rewrite Hs. reflexivity.
  - intros neg mx ex Hlt n. split.
    + apply (FormatFacts.round_half_up_nearest (Z.pos mx) ex 3).
    + destruct (FormatFacts.fixed_digits_shape n 3) as (a & b & Hab & Hb); [lia|].
      exists a, b. split; [assumption|]. split; [assumption|].
      unfold Builtins.toFixed. cbn [Z.ltb Z.compare orb]. rewrite Hlt.
      fold n. rewrite Hab. reflexivity.
  - intros s g view st su sl HA Hr d.
    destruct (App_cases s g) as (view' & HA' & Hc).
    rewrite HA in HA'. injection HA' as <-. fold d in Hc.
    destruct Hc as [(_ & _ & Hm)|[(_ & _ & Hm)|(_ & t & st' & su' & sl' & Ht & H1 & H2 & H3 & Hm)]];
      rewrite Hr in Hm; try discriminate Hm.
    injection Hm as -> -> ->. exists t. auto.
Qed.

(** C10.  [parseFloat] converts the numeric prefix and ignores what
    follows: a string it accepts, followed by anything that starts with a
    character which cannot continue a decimal literal, is read as the same
    number and validated alike.  Every string starting with 10a is read as
    10 and passes validation, although [Number] rejects 10abc as NaN. *)
Theorem C10_parseFloat_numeric_prefix :
  (forall (s : string) (ch : ascii) (rest : string),
     Num.isNaN (Builtins.parseFloat s) = false ->
     ParseFacts.extends_literal ch = false ->
     Builtins.parseFloat (s ++ String ch rest) = Builtins.parseFloat s /\
     isValidDimension (Builtins.parseFloat (s ++ String ch rest)) =
       isValidDimension (Builtins.parseFloat s)) /\
  (forall rest : string,
     Builtins.parseFloat ("10a" ++ rest) = 10 /\
     isValidDimension (Builtins.parseFloat ("10a" ++ rest)) = true) /\
  Builtins.parseFloat "10abc" = 10 /\
  Builtins.StringToNumber "10abc" = Num.NaN /\
  App "10abc" m = App "10" m /\
  App "10abc" m =
    Normal {| validationError := false;
              result := ShowValues "0.2" "10.2" "9.8" |}.
Proof.
  split; [|split; [|split; [|split; [|split]]]].
  3-6: vm_compute; reflexivity.
  - intros s ch rest Hs Hch.
    rewrite (ParseFacts.parseFloat_app ch rest Hch s Hs). split; reflexivity.
  - intros rest. split; reflexivity.
Qed.

(** * Further properties *)

(** ** Renders and memoisation *)

Lemma Object_is_eq (x y : number) : Object_is x y = true -> x = y.
Proof.
  destruct x as [a|a| |a mx ex], y as [b|b| |b my ey]; cbn [Object_is];
    try discriminate; try reflexivity.
  - intros H. apply Bool.eqb_prop in H. congruence.
  - intros H. apply Bool.eqb_prop in H. congruence.
  - intros H. apply andb_true_iff in H as [H H3].
    apply andb_true_iff in H as [H1 H2].
    apply Bool.eqb_prop in H1. apply Pos.eqb_eq in H2. apply Z.eqb_eq in H3.
    congruence.
Qed.

Lemma class_eqb_eq (a b : ToleranceClass) : class_eqb a b = true <-> a = b.
Proof. destruct a, b; cbn; split; intros H; congruence. Qed.

(** A memo cell is coherent when it holds what its dependencies
    calculate to. *)
Definition coherent (cell : option MemoCell) : Prop :=
  match cell with
  | Some cached =>
      tolerance (dep_dimension (cell_deps cached))
                (dep_tolClass (cell_deps cached)) =
      Normal (cell_value cached)
  | None => True
  end.

(** The states a session goes through. *)
Fixpoint trace (dimensionStr : string) (tolClass : ToleranceClass)
    (events : list Event) : list (string * ToleranceClass) :=
  (dimensionStr, tolClass) ::
  match events with
  | [] => []
  | InputChange value :: rest => trace value tolClass rest
  | RadioChange value :: rest => trace dimensionStr value rest
  end.

Lemma App_present (dimensionStr : string) (tolClass : ToleranceClass) :
  App dimensionStr tolClass =
  bind (tolerance (Builtins.parseFloat dimensionStr) tolClass)
       (present dimensionStr (Builtins.parseFloat dimensionStr)
                (isValidDimension (Builtins.parseFloat dimensionStr))).
Proof. reflexivity. Qed.

Lemma renderApp_coherent (h : Hooks) :
  coherent (hook_memo h) ->
  exists view cell,
    App (hook_dimensionStr h) (hook_tolClass h) = Normal view /\
    coherent cell /\
    renderApp h =
      Normal ({| screen_input := hook_dimensionStr h;
                 screen_radios := radios (hook_tolClass h);
                 screen_view := view |},
              {| hook_dimensionStr := hook_dimensionStr h;
                 hook_tolClass := hook_tolClass h;
                 hook_memo := cell |}).
Proof.
  intros Hc.
  destruct (App_cases (hook_dimensionStr h) (hook_tolClass h)) as (view & HA & _).
  exists view.
  set (d := Builtins.parseFloat (hook_dimensionStr h)) in *.
  destruct (tolerance_returns d (hook_tolClass h)) as [tol Htol].
  pose proof HA as HA0.
  rewrite App_present in HA. fold d in HA. rewrite Htol in HA. cbn [bind] in HA.
  unfold renderApp. fold d. unfold useMemo. rewrite Htol. cbn [bind].
  set (deps := {| dep_dimension := d;
                  dep_tolClass := hook_tolClass h;
                  dep_isValidDimension := isValidDimension d |}).
  set (fresh := Some {| cell_deps := deps; cell_value := tol |}).
  destruct (hook_memo h) as [cached|] eqn:Hm.
  - destruct (sameDeps (cell_deps cached) deps) eqn:Hs.
    + exists (Some cached). split; [exact HA0|]. split; [exact Hc|].
      unfold sameDeps, deps in Hs. cbn [dep_dimension dep_tolClass] in Hs.
      apply andb_true_iff in Hs as [Hs _]. apply andb_true_iff in Hs as [H1 H2].
      apply Object_is_eq in H1. apply class_eqb_eq in H2.
      unfold coherent in Hc. rewrite H1, H2, Htol in Hc. injection Hc as <-.
      cbn [bind fst snd]. rewrite HA. reflexivity.
    + exists fresh. split; [exact HA0|]. split; [exact Htol|].
      cbn [bind fst snd]. rewrite HA. reflexivity.
  - exists fresh. split; [exact HA0|]. split; [exact Htol|].
    cbn [bind fst snd]. rewrite HA. reflexivity.
Qed.

Lemma session_coherent (events : list Event) :
  forall h, coherent (hook_memo h) ->
  exists screens,
    session h events = Normal screens /\
    Forall2 (fun screen state =>
               App (fst state) (snd state) = Normal (screen_view screen) /\
               screen_input screen = fst state /\
               screen_radios screen = radios (snd state))
            screens
            (trace (hook_dimensionStr h) (hook_tolClass h) events).
Proof.
  induction events as [|ev rest IH]; intros h Hc;
    destruct (renderApp_coherent h Hc) as (view & cell & HA & Hcell & Hr);
    cbn [session]; rewrite Hr; cbn [bind fst snd].
  - eexists. split; [reflexivity|]. cbn [trace].
    constructor; [|constructor]. cbn. auto.
  - set (h' := handle _ ev).
    assert (Hc' : coherent (hook_memo h')) by (destruct ev; exact Hcell).
    destruct (IH h' Hc') as (screens & Hs & HF).
    rewrite Hs. cbn [bind]. eexists. split; [reflexivity|].
    destruct ev; cbn [trace]; constructor; cbn; auto.
Qed.

(** X1.  Memoisation never shows a stale result.  Through any sequence
    of input and radio changes, starting from the first render, every
    render returns normally and shows exactly what [App] computes from
    the current dimension string and class: the cached tolerance of
    [useMemo] is reused only when it equals a fresh calculation.  The
    input field echoes the current string and the radios are those of
    the current class. *)
Theorem X1_session_never_stale (events : list Event) :
  exists screens,
    session mount events = Normal screens /\
    Forall2 (fun screen state =>
               App (fst state) (snd state) = Normal (screen_view screen) /\
               screen_input screen = fst state /\
               screen_radios screen = radios (snd state))
            screens
            (trace initialDimensionStr initialTolClass events).
Proof. apply (session_coherent events mount). exact I. Qed.

(** The flag behind the inline message, as [App] computes it. *)
Lemma App_validationError
    (dimensionStr : string) (tolClass : ToleranceClass) (view : View) :
  App dimensionStr tolClass = Normal view ->
  validationError view =
  negb (String.eqb dimensionStr "") &&
  negb (isValidDimension (Builtins.parseFloat dimensionStr)).
Proof.
  unfold App.
  destruct (tolerance_returns (Builtins.parseFloat dimensionStr) tolClass)
    as [tol ->]. cbn [bind].
  destruct tol as [t|]; cbn [bind].
  - destruct (formatNumber_returns (Some t)) as [st ->].
    destruct (formatNumber_returns
                (upperLimit (Builtins.parseFloat dimensionStr) (Some t))) as [su ->].
    destruct (formatNumber_returns
                (lowerLimit (Builtins.parseFloat dimensionStr) (Some t))) as [sl ->].
    cbn [bind]. intros H. injection H as <-. reflexivity.
  - intros H. injection H as <-. reflexivity.
Qed.

(** X2.  The two places that report a bad input agree.  The message
    under the input is shown exactly when the string is not empty and
    the dimension is not valid; the result pane asks for a valid
    dimension exactly when the dimension is not valid.  So the inline
    message never appears without the result pane's message, and an
    empty input gives the result pane's message alone. *)
Theorem X2_validation_message (dimensionStr : string) (tolClass : ToleranceClass) :
  exists view,
    App dimensionStr tolClass = Normal view /\
    (validationError view = true <->
     dimensionStr <> ""%string /\
     isValidDimension (Builtins.parseFloat dimensionStr) = false) /\
    (result view = ShowMessage EnterValidDimension <->
     isValidDimension (Builtins.parseFloat dimensionStr) = false) /\
    (validationError view = true ->
     result view = ShowMessage EnterValidDimension) /\
    (dimensionStr = ""%string ->
     validationError view = false /\
     result view = ShowMessage EnterValidDimension).
Proof.
  destruct (App_cases dimensionStr tolClass) as (view & HA & Hc).
  exists view. split; [assumption|].
  pose proof (App_validationError dimensionStr tolClass view HA) as Hflag.
  assert (Hpane : result view = ShowMessage EnterValidDimension <->
                  isValidDimension (Builtins.parseFloat dimensionStr) = false).
  { destruct Hc as [(Hv & _ & Hr)|[(Hv & _ & Hr)|(Hv & t & st & su & sl & _ & _ & _ & _ & Hr)]];
      rewrite Hr, Hv; split; intros H; try reflexivity; discriminate H. }
  assert (Hmsg : validationError view = true <->
                 dimensionStr <> ""%string /\
                 isValidDimension (Builtins.parseFloat dimensionStr) = false).
  { rewrite Hflag, andb_true_iff, !negb_true_iff, String.eqb_neq. reflexivity. }
  split; [exact Hmsg|]. split; [exact Hpane|]. split.
  - intros H. apply Hpane, Hmsg. assumption.
  - intros ->. split; [rewrite Hflag; reflexivity|].
    apply Hpane. reflexivity.
Qed.

(** X3.  The tolerance grows with the size: of two validated dimensions
    with a tolerance in the same class, the larger one has the larger or
    equal tolerance. *)
Theorem X3_tolerance_monotone
    (d1 d2 : number) (g : ToleranceClass) (t1 t2 : number) :
  isValidDimension d1 = true -> isValidDimension d2 = true ->
  (d1 <= d2) = true ->
  tolerance d1 g = Normal (Some t1) -> tolerance d2 g = Normal (Some t2) ->
  (t1 <= t2) = true.
Proof.
  intros Hv1 Hv2 Hle Ht1 Ht2.
  destruct (findRange_unique d1 Hv1) as (i & r1 & Hi & Hf1 & Hin1 & _).
  destruct (findRange_unique d2 Hv2) as (j & r2 & Hj & Hf2 & Hin2 & _).
  rewrite (tolerance_found d1 g r1 Hv1 Hf1) in Ht1.
  rewrite (tolerance_found d2 g r2 Hv2 Hf2) in Ht2.
  destruct (valid_finite d1 Hv1) as (m1 & e1 & -> & _ & _).
  destruct (valid_finite d2 Hv2) as (m2 & e2 & -> & _ & _).
  clear Hv1 Hv2 Hf1 Hf2.
  row_of i Hi; row_of j Hj; destruct g; cbn in Ht1, Ht2;
    try discriminate Ht1; try discriminate Ht2;
    injection Ht1 as <-; injection Ht2 as <-;
    try reflexivity;
    exfalso; cbn in Hin1, Hin2; num2Z; lia.
Qed.

Lemma X3_tolerance_monotone_witness : (0.1 <= 0.3) = true.
Proof.
  apply (X3_tolerance_monotone 3 100 m 0.1 0.3); reflexivity.
Defined.

(** X4.  Whatever string is typed, when validation passes and the table
    has a tolerance, the tolerance is positive and the two limits lie
    strictly on either side of the parsed dimension: the well-formedness
    that C2 asks of the dimension always holds of what [parseFloat]
    returns. *)
Theorem X4_limits_bracket_every_input
    (dimensionStr : string) (tolClass : ToleranceClass) :
  let d := Builtins.parseFloat dimensionStr in
  Num.is_double d = true /\
  forall t,
    isValidDimension d = true ->
    tolerance d tolClass = Normal (Some t) ->
    (0 < t) = true /\ (d - t < d) = true /\ (d < d + t) = true.
Proof.
  intros d. pose proof (Validity.parseFloat_valid dimensionStr) as Hd.
  fold d in Hd. split; [assumption|].
  intros t Hv Ht.
  exact (limits_bracket d tolClass t Hd Hv Ht).
Qed.

(** X5.  Which inputs get the not-specified message.  For a validated
    dimension the tolerance is null exactly for class [v] up to 3 and
    for class [f] above 2000; and for every string and class the result
    pane shows the not-specified message exactly when the dimension is
    valid and the pair is one of those two. *)
Theorem X5_unspecified_characterised
    (dimensionStr : string) (tolClass : ToleranceClass) :
  let d := Builtins.parseFloat dimensionStr in
  (isValidDimension d = true ->
   (tolerance d tolClass = Normal None <->
    (tolClass = v /\ (d <= 3) = true) \/
    (tolClass = f /\ (d > 2000) = true))) /\
  exists view,
    App dimensionStr tolClass = Normal view /\
    (result view = ShowMessage NotSpecified <->
     isValidDimension d = true /\
     ((tolClass = v /\ (d <= 3) = true) \/
      (tolClass = f /\ (d > 2000) = true))).
Proof.
  intros d.
  assert (Hchar : isValidDimension d = true ->
            (tolerance d tolClass = Normal None <->
             (tolClass = v /\ (d <= 3) = true) \/
             (tolClass = f /\ (d > 2000) = true))).
  { intros Hv.
    destruct (findRange_unique d Hv) as (i & r & Hi & Hf & Hin & _).
    rewrite (tolerance_found d tolClass r Hv Hf).
    destruct (valid_finite d Hv) as (md & ed & Hd & Hlo & Hhi).
    rewrite Hd in *. clear Hv Hf Hd. unfold Num.gt.
    row_of i Hi; destruct tolClass; cbn in Hin |- *; num2Z;
      (split; [ intros Hx; try discriminate Hx
              | intros [[Hx Hy]|[Hx Hy]]; try discriminate Hx; try reflexivity;
                exfalso; num2Z; lia ]).
    all: first [ left; split; [reflexivity|]; apply NumFacts.le_fin; lia
               | right; split; [reflexivity|]; apply NumFacts.lt_fin; lia ]. }
  split; [exact Hchar|].
  destruct (App_cases dimensionStr tolClass) as (view & HA & Hc).
  fold d in Hc. exists view. split; [assumption|].
  destruct Hc as [(Hv & Ht & Hr)|[(Hv & Ht & Hr)|(Hv & t & st & su & sl & Ht & _ & _ & _ & Hr)]];
    rewrite Hr.
  - split; [discriminate|]. intros [Hv' _]. congruence.
  - split; [|reflexivity]. intros _. split; [assumption|].
    apply (proj1 (Hchar Hv)). assumption.
  - split; [discriminate|]. intros [_ Hx].
    apply (proj2 (Hchar Hv)) in Hx. congruence.
Qed.

(** The classes from the tightest to the loosest. *)
Definition looseness (g : ToleranceClass) : nat :=
  match g with f => 0 | m => 1 | c => 2 | v => 3 end.

(** X6.  At one dimension a looser class never has a tighter
    tolerance: going from [f] to [m] to [c] to [v], the tolerances the
    table defines strictly increase. *)
Theorem X6_looser_class_larger_tolerance
    (d : number) (g1 g2 : ToleranceClass) (t1 t2 : number) :
  isValidDimension d = true ->
  (looseness g1 < looseness g2)%nat ->
  tolerance d g1 = Normal (Some t1) -> tolerance d g2 = Normal (Some t2) ->
  (t1 <= t2) = true /\ (t1 === t2) = false.
Proof.
  intros Hv Hg H1 H2.
  destruct (findRange_unique d Hv) as (i & r & Hi & Hf & _ & _).
  rewrite (tolerance_found d g1 r Hv Hf) in H1.
  rewrite (tolerance_found d g2 r Hv Hf) in H2. clear Hv Hf.
  row_of i Hi; destruct g1, g2; cbn in Hg; try lia;
    cbn in H1, H2; try discriminate H1; try discriminate H2;
    injection H1 as <-; injection H2 as <-; split; reflexivity.
Qed.

Lemma X6_looser_class_larger_tolerance_witness :
  (0.1 <= 0.3) = true /\ (0.1 === 0.3) = false.
Proof.
  apply (X6_looser_class_larger_tolerance 5 m c 0.1 0.3);
    [reflexivity | cbn; lia | reflexivity | reflexivity].
Defined.

(** X7.  For a validated double with a tolerance, both limits are
    defined and are positive finite numbers (no NaN, no infinity, no
    zero), the lower limit is below the upper limit, and the tolerance
    is smaller than the dimension. *)
Theorem X7_limits_positive_finite_ordered
    (d : number) (g : ToleranceClass) (t : number) :
  Num.is_double d = true ->
  isValidDimension d = true ->
  tolerance d g = Normal (Some t) ->
  exists lo hi,
    lowerLimit d (Some t) = Some lo /\ upperLimit d (Some t) = Some hi /\
    (exists ml el, lo = S754_finite false ml el) /\
    (exists mh eh, hi = S754_finite false mh eh) /\
    (0 < lo) = true /\ (lo < hi) = true /\ (t < d) = true.
Proof.
  intros Hd Hv Ht.
  destruct (limits_bracket d g t Hd Hv Ht) as (_ & Hlo & Hhi).
  destruct (findRange_unique d Hv) as (i & r & Hi & Hf & Hin & _).
  rewrite (tolerance_found d g r Hv Hf) in Ht.
  destruct (valid_finite d Hv) as (md & ed & Hde & Hge & _).
  rewrite Hde in *.
  assert (Dd : Z.pos (digits2_pos md) = 53%Z).
  { apply (NumFacts.double_digits false md ed Hd). num2Z. lia. }
  clear Hd Hv Hf Hde. cbn [lowerLimit upperLimit].
  exists (S754_finite false md ed - t), (S754_finite false md ed + t).
  split; [reflexivity|]. split; [reflexivity|].
  row_of i Hi; destruct g; cbn in Ht; try discriminate Ht;
    injection Ht as <-; cbn in Hin; num2Z.
  all: match goal with
       | |- context [Num.sub (S754_finite false _ _) (S754_finite false ?mt ?et)] =>
           destruct (Shape.sub_finite md mt ed et) as (ml & el & Hl & _ & _);
             [assumption | reflexivity | lia .. |];
           destruct (Shape.add_finite md mt ed et) as (mh & eh & Hh & _ & _);
             [assumption | reflexivity | lia .. |]
       end;
       rewrite Hl in Hlo |- *; rewrite Hh in Hhi |- *;
       split; [eauto|]; split; [eauto|]; split; [reflexivity|];
       split; [ apply NumFacts.lt_fin; num2Z; lia
              | apply NumFacts.lt_fin; lia ].
Qed.

Lemma X7_limits_positive_finite_ordered_witness :
  exists lo hi,
    lowerLimit 10 (Some 0.2) = Some lo /\ upperLimit 10 (Some 0.2) = Some hi /\
    (exists ml el, lo = S754_finite false ml el) /\
    (exists mh eh, hi = S754_finite false mh eh) /\
    (0 < lo) = true /\ (lo < hi) = true /\ (0.2 < 10) = true.
Proof.
  apply (X7_limits_positive_finite_ordered 10 m 0.2); reflexivity.
Defined.

(** X8.  An input that is blank (empty or white space only) or that
    starts, after leading white space, with a minus sign is never a
    valid dimension, whatever follows the sign: the result pane asks for
    a valid dimension. *)
Theorem X8_blank_and_negative_rejected
    (dimensionStr : string) (tolClass : ToleranceClass) :
  Builtins.all_white_space dimensionStr = true \/
  (exists rest, Builtins.trim_start dimensionStr = String "-" rest) ->
  isValidDimension (Builtins.parseFloat dimensionStr) = false /\
  exists view,
    App dimensionStr tolClass = Normal view /\
    result view = ShowMessage EnterValidDimension.
Proof.
  intros H.
  assert (Hv : isValidDimension (Builtins.parseFloat dimensionStr) = false).
  { destruct H as [H|[rest H]].
    - rewrite (SignFacts.parseFloat_blank _ H). reflexivity.
    - apply SignFacts.signed_invalid, (SignFacts.parseFloat_minus _ rest H). }
  split; [assumption|].
  destruct (App_cases dimensionStr tolClass) as (view & HA & Hc).
  exists view. split; [assumption|].
  destruct Hc as [(_ & _ & Hr)|[(Hv' & _)|(Hv' & _)]]; [assumption| |];
    congruence.
Qed.

Lemma X8_blank_and_negative_rejected_witness :
  isValidDimension (Builtins.parseFloat " -10") = false /\
  exists view,
    App " -10" m = Normal view /\
    result view = ShowMessage EnterValidDimension.
Proof.
  apply (X8_blank_and_negative_rejected " -10" m).
  right. exists "10"%string. reflexivity.
Defined.

(** X9.  Formatting loses nothing of a tolerance.  Every tolerance
    the table gives for a validated dimension lies between 0.05 and 8,
    and the string [formatNumber] displays for it reads back, by
    [Number] and by [parseFloat], as exactly the table's number. *)
Theorem X9_displayed_tolerance_reads_back
    (d : number) (g : ToleranceClass) (t : number) :
  isValidDimension d = true ->
  tolerance d g = Normal (Some t) ->
  (0.05 <= t) = true /\ (t <= 8) = true /\
  exists shown,
    formatNumber (Some t) = Normal shown /\
    Builtins.StringToNumber shown = t /\
    Builtins.parseFloat shown = t.
Proof.
  intros Hv Ht.
  destruct (findRange_unique d Hv) as (i & r & Hi & Hf & _ & _).
  rewrite (tolerance_found d g r Hv Hf) in Ht. clear Hv Hf.
  row_of i Hi; destruct g; cbn in Ht; try discriminate Ht;
    injection Ht as <-;
    (split; [reflexivity|]; split; [reflexivity|];
     eexists; split; [vm_compute; reflexivity|];
     split; vm_compute; reflexivity).
Qed.

Lemma X9_displayed_tolerance_reads_back_witness :
  (0.05 <= 0.15) = true /\ (0.15 <= 8) = true /\
  exists shown,
    formatNumber (Some 0.15) = Normal shown /\
    Builtins.StringToNumber shown = 0.15 /\
    Builtins.parseFloat shown = 0.15.
Proof.
  apply (X9_displayed_tolerance_reads_back 100 f 0.15); reflexivity.
Defined.

(** X10.  [formatNumber] returns the dash exactly for null: no number,
    not even NaN or a negative one, is displayed as a lone dash. *)
Theorem X10_dash_only_for_null (num : option number) :
  formatNumber num = Normal "-"%string <-> num = None.
Proof.
  split; [|intros ->; reflexivity].
  destruct num as [x|]; [|reflexivity]. cbn [formatNumber].
  destruct (FormatFacts.toFixed_returns x) as [s ->]. cbn [bind].
  intros H. injection H as H. exfalso.
  exact (SignFacts.toString_not_dash _ H).
Qed.

Lemma radios_one_checked (tolClass : ToleranceClass) :
  map radio_value (filter radio_checked (radios tolClass)) = [tolClass] /\
  map radio_value (radios tolClass) = [f; m; c; v].
Proof. destruct tolClass; split; reflexivity. Qed.

(** X11.  Through any sequence of changes every render offers the
    four classes [f], [m], [c], [v] in this order, with exactly one
    radio checked, the one of the current class; the input field holds
    the current string. *)
Theorem X11_one_class_selected (events : list Event) :
  exists screens,
    session mount events = Normal screens /\
    Forall2 (fun screen state =>
               map radio_value (filter radio_checked (screen_radios screen)) =
                 [snd state] /\
               map radio_value (screen_radios screen) = [f; m; c; v] /\
               screen_input screen = fst state)
            screens
            (trace initialDimensionStr initialTolClass events).
Proof.
  destruct (session_coherent events mount I) as (screens & Hs & HF).
  exists screens. split; [assumption|].
  eapply Forall2_impl; [|exact HF].
  intros screen state (_ & Hi & Hr). rewrite Hr.
  destruct (radios_one_checked (snd state)). auto.
Qed.

Lemma all_white_space_trim (s : string) :
  Builtins.all_white_space (Builtins.trim_start s) = Builtins.all_white_space s.
Proof.
  induction s as [|ch s IH]; cbn [Builtins.trim_start Builtins.all_white_space];
    [reflexivity|].
  destruct (Builtins.is_white_space ch) eqn:E; cbn [andb]; [assumption|].
  cbn [Builtins.all_white_space]. rewrite E. reflexivity.
Qed.

(** X12.  [parseFloat] and [Number] agree wherever [Number] accepts a
    decimal string: for a string that is not blank and is not a
    hexadecimal, octal or binary literal, if [Number] does not return
    NaN then [parseFloat] returns the same number. *)
Theorem X12_parseFloat_agrees_with_Number (s : string) :
  Builtins.all_white_space s = false ->
  Builtins.scan_radix_literal (Builtins.trim_start s) = None ->
  Num.isNaN (Builtins.StringToNumber s) = false ->
  Builtins.parseFloat s = Builtins.StringToNumber s.
Proof.
  intros Hb Hr Hn. unfold Builtins.StringToNumber in *.
  rewrite all_white_space_trim, Hb, Hr in *.
  unfold Builtins.parseFloat.
  destruct (Builtins.scan_sign (Builtins.trim_start s)) as [neg r].
  destruct (Builtins.scan_unsigned r) as [[l rest]|]; [|reflexivity].
  destruct (Builtins.all_white_space rest); [reflexivity|discriminate Hn].
Qed.

Lemma X12_parseFloat_agrees_with_Number_witness :
  Builtins.parseFloat " 2.900 " = Builtins.StringToNumber " 2.900 ".
Proof.
  apply (X12_parseFloat_agrees_with_Number " 2.900 "); reflexivity.
Defined.

Lemma findRange_none_iff (d : number) :
  findRange d = None <-> isValidDimension d = false.
Proof.
  split.
  - intros Hn. destruct (isValidDimension d) eqn:Hv; [|reflexivity].
    destruct (findRange_unique d Hv) as (i & r & _ & Hf & _). congruence.
  - intros Hv.
    destruct d as [s|s| |s md ed].
    1-2: destruct s; vm_compute; reflexivity.
    1: vm_compute; reflexivity.
    destruct s; [reflexivity|].
    unfold isValidDimension in Hv. cbn [Num.isNaN negb andb] in Hv.
    unfold findRange, toleranceTable. cbn [find].
    repeat match goal with
    | |- context [inRange ?x ?r] =>
        let b := fresh "b" in
        destruct (inRange x r) eqn:b;
        [ exfalso; cbn in b, Hv; num2Z; split_false | clear b ]
    end.
    reflexivity.
Qed.

(** X13.  The table lookup and the validation agree: [find] comes back
    empty exactly for the dimensions that validation rejects (NaN among
    them), so the tolerance is what the row found gives for the class,
    and null when no row is found; the validity guard in front of the
    lookup never changes the outcome. *)
Theorem X13_lookup_fails_exactly_on_invalid (d : number) :
  (findRange d = None <-> isValidDimension d = false) /\
  forall g : ToleranceClass,
    tolerance d g =
    Normal (match findRange d with
            | Some r => get (tolerances r) g
            | None => None
            end).
Proof.
  split; [apply findRange_none_iff|].
  intros g. destruct (isValidDimension d) eqn:Hv.
  - destruct (findRange_unique d Hv) as (i & r & _ & Hf & _).
    rewrite Hf. apply tolerance_found; assumption.
  - rewrite (proj2 (findRange_none_iff d) Hv).
    apply tolerance_invalid. assumption.
Qed.

(** A positive double below 10^21 is displayed as a number without a
    minus sign. *)
Lemma formatNumber_unsigned (mx : positive) (ex : Z) :
  Z.pos (digits2_pos mx) = 53%Z -> (ex <= 0)%Z ->
  exists shown,
    formatNumber (Some (S754_finite false mx ex)) = Normal shown /\
    shown <> "NaN"%string /\ forall r, shown <> String "-" r.
Proof.
  intros Dm He. cbn [formatNumber].
  destruct (ReadBack.toFixed_reads_back false mx ex (ReadBack.below_1e21 mx ex Dm He))
    as (s & -> & Hn & Hs).
  cbn [bind]. eexists. split; [reflexivity|].
  apply ReadBack.toString_unsigned; assumption.
Qed.

(** The tolerance and both limits of a validated dimension are positive
    doubles with full 53-bit significands and non-positive exponents. *)
Lemma limits_shape (d : number) (g : ToleranceClass) (t : number) :
  Num.is_double d = true ->
  isValidDimension d = true ->
  tolerance d g = Normal (Some t) ->
  exists mt et ml el mh eh,
    t = S754_finite false mt et /\
    d - t = S754_finite false ml el /\
    d + t = S754_finite false mh eh /\
    (Z.pos (digits2_pos mt) = 53 /\ et <= 0)%Z /\
    (Z.pos (digits2_pos ml) = 53 /\ el <= 0)%Z /\
    (Z.pos (digits2_pos mh) = 53 /\ eh <= 0)%Z.
Proof.
  intros Hd Hv Ht.
  destruct (findRange_unique d Hv) as (i & r & Hi & Hf & Hin & _).
  rewrite (tolerance_found d g r Hv Hf) in Ht.
  destruct (valid_finite d Hv) as (md & ed & -> & Hge & _).
  assert (Dd : Z.pos (digits2_pos md) = 53%Z).
  { apply (NumFacts.double_digits false md ed Hd). num2Z. lia. }
  clear Hd Hv Hf.
  row_of i Hi; destruct g; cbn in Ht; try discriminate Ht;
    injection Ht as <-; cbn in Hin; num2Z.
  all: match goal with
       | |- context [Num.sub (S754_finite false _ _) (S754_finite false ?mt ?et)] =>
           destruct (Shape.sub_finite md mt ed et) as (ml & el & Hl & Dl & El);
             [assumption | reflexivity | lia .. |];
           destruct (Shape.add_finite md mt ed et) as (mh & eh & Hh & Dh & Eh);
             [assumption | reflexivity | lia .. |];
           exists mt, et, ml, el, mh, eh
       end;
       split; [reflexivity|]; split; [exact Hl|]; split; [exact Hh|];
       split; [split; [reflexivity|lia]|]; split; split; try assumption; lia.
Qed.

(** X14.  The result pane never displays NaN or a negative number:
    whenever [App] shows the three values, for whatever input string and
    class, none of the three strings is [NaN] and none starts with a
    minus sign. *)
Theorem X14_displayed_values_never_NaN_or_negative
    (dimensionStr : string) (tolClass : ToleranceClass)
    (view : View) (st su sl : string) :
  App dimensionStr tolClass = Normal view ->
  result view = ShowValues st su sl ->
  Forall (fun shown => shown <> "NaN"%string /\
                       forall r, shown <> String "-" r) [st; su; sl].
Proof.
  intros HA Hr.
  destruct (App_cases dimensionStr tolClass)
    as (view' & HA' & [(_ & _ & Hm)|[(_ & _ & Hm)|(Hv & t & st' & su' & sl' & Ht & Hst & Hsu & Hsl & Hres)]]);
    rewrite HA in HA'; injection HA' as <-; rewrite Hr in *; try discriminate.
  injection Hres as <- <- <-.
  pose proof (Validity.parseFloat_valid dimensionStr) as Hd.
  destruct (limits_shape _ tolClass t Hd Hv Ht)
    as (mt & et & ml & el & mh & eh & -> & Hl & Hh & [Dt Et] & [Dl El] & [Dh Eh]).
  cbn [upperLimit lowerLimit] in Hsu, Hsl. rewrite Hh in Hsu. rewrite Hl in Hsl.
  destruct (formatNumber_unsigned mt et Dt Et) as (s1 & E1 & P1).
  destruct (formatNumber_unsigned mh eh Dh Eh) as (s2 & E2 & P2).
  destruct (formatNumber_unsigned ml el Dl El) as (s3 & E3 & P3).
  pose proof (eq_trans (eq_sym E1) Hst) as H1. injection H1 as <-.
  pose proof (eq_trans (eq_sym E2) Hsu) as H2. injection H2 as <-.
  pose proof (eq_trans (eq_sym E3) Hsl) as H3. injection H3 as <-.
  constructor; [exact P1|]. constructor; [exact P2|].
  constructor; [exact P3|]. constructor.
Qed.

Lemma X14_displayed_values_never_NaN_or_negative_witness :
  Forall (fun shown => shown <> "NaN"%string /\
                       forall r, shown <> String "-" r)
         ["0.2"%string; "10.2"%string; "9.8"%string].
Proof.
  apply (X14_displayed_values_never_NaN_or_negative "10" m
           {| validationError := false;
              result := ShowValues "0.2" "10.2" "9.8" |} "0.2" "10.2" "9.8");
    [vm_compute; reflexivity | reflexivity].
Defined.
